(** * The news filter of CryptoGoldAlertBot ([filter.py], [config.py])

    A shallow embedding of [NewsFilter] (duplicate detection, relevance
    scoring, the filter pipeline and the sent-headline history) together
    with the properties of it that the design note states.

    Conventions of the embedding.
    - A Python [str] is a [string]; its characters are the code points
      0..255, classified as CPython classifies them.
    - A Python [dict] with string keys is a [gmap string value].
    - A Python [float] is a rational [Q].  Every score is a sum of multiples
      of 0.5 and every similarity a quotient of two word counts, which a
      double represents or rounds monotonically; the comparisons against
      the literals 0.1 and 0.85 therefore agree with the exact ones for
      every text shorter than 2^48 words.
    - Raising is explicit: fallible code returns a [result].
    - Logging is not modelled. *)

From Stdlib Require Import String Ascii List ZArith QArith Qround Qabs Bool Lia.
From Stdlib Require Import Sorting.Sorted Sorting.Permutation.
From stdpp Require Import base option gmap strings list sorting pretty.

Open Scope string_scope.

(** ** Python strings *)

Module PyStr.

Definition code (c : ascii) : N := N_of_ascii c.

Definition between (lo hi : N) (c : ascii) : bool :=
  ((lo <=? code c) && (code c <=? hi))%N.

(** [str.isspace] on one character, which is also the class [\s] of [re]
    and the separator set of [str.split()] and [str.strip()]. *)
Definition is_space (c : ascii) : bool :=
  between 9 13 c || between 28 32 c || between 133 133 c
  || between 160 160 c.

(** The class [\w] of [re] on a [str] pattern: alphanumerics and the
    underscore. *)
Definition is_word (c : ascii) : bool :=
  between 48 57 c || between 65 90 c || between 97 122 c
  || between 95 95 c
  || between 170 170 c || between 178 179 c || between 181 181 c
  || between 185 186 c || between 188 190 c
  || between 192 214 c || between 216 246 c || between 248 255 c.

Definition lower_char (c : ascii) : ascii :=
  if between 65 90 c || between 192 214 c || between 216 222 c
  then ascii_of_N (code c + 32) else c.

(** [s.lower()] *)
Fixpoint lower (s : string) : string :=
  match s with
  | EmptyString => EmptyString
  | String c s' => String (lower_char c) (lower s')
  end.

(** [re.sub(r'[^\w\s]', '', s)] *)
Fixpoint sub_non_word_space (s : string) : string :=
  match s with
  | EmptyString => EmptyString
  | String c s' =>
      if is_word c || is_space c then String c (sub_non_word_space s')
      else sub_non_word_space s'
  end.

Fixpoint lstrip (s : string) : string :=
  match s with
  | EmptyString => EmptyString
  | String c s' => if is_space c then lstrip s' else s
  end.

Fixpoint rstrip (s : string) : string :=
  match s with
  | EmptyString => EmptyString
  | String c s' =>
      match rstrip s' with
      | EmptyString => if is_space c then EmptyString else String c EmptyString
      | r => String c r
      end
  end.

(** [s.strip()] *)
Definition strip (s : string) : string := rstrip (lstrip s).

(** [s.split()]: the maximal runs of non-space characters; [w] is the
    word being read. *)
Fixpoint split_from (w : string) (s : string) : list string :=
  match s with
  | EmptyString => match w with EmptyString => [] | _ => [w] end
  | String c s' =>
      if is_space c
      then match w with
           | EmptyString => split_from EmptyString s'
           | _ => w :: split_from EmptyString s'
           end
      else split_from (w ++ String c EmptyString) s'
  end.

Definition split (s : string) : list string := split_from EmptyString s.

(** [s.startswith(sub)] *)
Fixpoint startswith (sub s : string) : bool :=
  match sub, s with
  | EmptyString, _ => true
  | String _ _, EmptyString => false
  | String a sub', String b s' => Ascii.eqb a b && startswith sub' s'
  end.

(** [sub in s] *)
Fixpoint contains (sub s : string) : bool :=
  startswith sub s ||
  match s with
  | EmptyString => false
  | String _ s' => contains sub s'
  end.

(** The scan of [s.count(sub)] for a non-empty [sub]: occurrences are
    counted from the left and do not overlap; [skip] characters of the
    occurrence just counted are still to be passed. *)
Fixpoint count_from (sub : string) (skip : nat) (s : string) : nat :=
  match s with
  | EmptyString => 0
  | String _ s' =>
      match skip with
      | S k => count_from sub k s'
      | O => if startswith sub s
             then S (count_from sub (String.length sub - 1) s')
             else count_from sub 0 s'
      end
  end.

(** [s.count(sub)] *)
Definition count (sub s : string) : nat :=
  match sub with
  | EmptyString => S (String.length s)
  | _ => count_from sub 0 s
  end.

End PyStr.

(** ** Python values, dictionaries and exceptions *)

(** The values an article field can hold.  [VObj] is any object that is
    neither [None], a [str] nor a [float]: all the filter can observe of it
    is its text [str(x)] and its truth value; it has no [lower] method and
    is equal to no [str]. *)
Inductive value : Type :=
| VNone
| VStr (s : string)
| VFloat (q : Q)
| VObj (text : string) (truthy : bool).

(** An article record is a [dict]. *)
Abbreviation Article := (gmap string value).

Inductive exn : Type := KeyError | AttributeError | TypeError.

Inductive result (A : Type) : Type :=
| Ok (a : A)
| Raise (e : exn).
Arguments Ok {A} a.
Arguments Raise {A} e.

Definition bind {A B : Type} (r : result A) (k : A -> result B) : result B :=
  match r with
  | Ok a => k a
  | Raise e => Raise e
  end.

#[global] Instance result_bind : MBind result := fun A B k r => bind r k.
#[global] Instance result_ret : MRet result := @Ok.

Definition is_raise {A : Type} (r : result A) : bool :=
  match r with Ok _ => false | Raise _ => true end.

Module Py.

(** [d.get(k, dflt)] *)
Definition get (d : Article) (k : string) (dflt : value) : value :=
  match d !! k with Some v => v | None => dflt end.

(** [d[k]] *)
Definition getitem (d : Article) (k : string) : result value :=
  match d !! k with Some v => Ok v | None => Raise KeyError end.

(** [bool(v)] *)
Definition truthy (v : value) : bool :=
  match v with
  | VNone => false
  | VStr s => negb (String.eqb s "")
  | VFloat q => negb (Qeq_bool q 0)
  | VObj _ t => t
  end.

(** [v == s] for a [str] literal [s] *)
Definition eq_str (v : value) (s : string) : bool :=
  match v with VStr t => String.eqb t s | _ => false end.

(** [v.lower()] *)
Definition lower (v : value) : result string :=
  match v with
  | VStr s => Ok (PyStr.lower s)
  | _ => Raise AttributeError
  end.

(** [repr] of a float, exact for the multiples of 0.5 (the only floats
    the filter produces); the other digits are not modelled. *)
Definition float_repr (q : Q) : string :=
  let halves := Qfloor (2 * Qabs q) in
  ((if Qle_bool 0 q then "" else "-")
   ++ pretty (halves / 2)%Z
   ++ (if Z.even halves then ".0" else ".5")).

(** The text of [v] inside an f-string, [f"{v}"]. *)
Definition format (v : value) : string :=
  match v with
  | VNone => "None"
  | VStr s => s
  | VFloat q => float_repr q
  | VObj text _ => text
  end.

(** [l[-n:]] *)
Definition slice_last {A : Type} (n : Z) (l : list A) : list A :=
  if (n =? 0)%Z then l
  else if (0 <? n)%Z then drop (length l - Z.to_nat n) l
  else drop (Z.to_nat (- n)) l.

End Py.

(** ** Configuration ([config.py]) *)

Record Config : Type := {
  CRYPTO_KEYWORDS : list string;
  GOLD_KEYWORDS : list string;
  MAX_STORED_HEADLINES : Z
}.

Definition config : Config := {|
  CRYPTO_KEYWORDS :=
    ["bitcoin"; "ethereum"; "binance"; "etf"; "crypto"; "cryptocurrency";
     "altcoin"; "market"; "bull"; "bear"; "trading"; "btc"; "eth";
     "blockchain"; "defi"; "nft"; "coin"; "digital"; "mining";
     "wallet"; "exchange"; "price"; "surge"; "rally"; "drop";
     "investment"; "token"; "decentralized"; "web3"];
  GOLD_KEYWORDS :=
    ["gold"; "precious"; "metals"; "bullion"; "mining"; "miners";
     "copper"; "silver"; "commodity"; "resources"; "exploration";
     "discovery"; "reserves"; "production"; "output"; "market";
     "price"; "investment"; "safe"; "haven"; "inflation"];
  MAX_STORED_HEADLINES := 50
|}.

(** ** The filter object and the file it persists to *)

(** [sent_headlines] is the attribute of the [NewsFilter] object; [disk] is
    what [load_sent_headlines] would read from [SENT_HEADLINES_FILE]:
    [None] when the file is absent or does not parse. *)
Record NewsFilter : Type := {
  sent_headlines : list string;
  disk : option (list string)
}.

(** What happens to the file during one [save_sent_headlines]: the dump is
    written, or [open] raises and the file is untouched, or the dump raises
    after [open] has truncated the file. *)
Inductive write_outcome : Type := Written | OpenFailed | DumpFailed.

Definition load_sent_headlines (d : option (list string)) : list string :=
  match d with Some hs => hs | None => [] end.

Definition save_sent_headlines (cfg : Config) (io : write_outcome)
    (self : NewsFilter) : NewsFilter :=
  let recent_headlines :=
    Py.slice_last (MAX_STORED_HEADLINES cfg) (sent_headlines self) in
  match io with
  | Written =>
      {| sent_headlines := sent_headlines self; disk := Some recent_headlines |}
  | OpenFailed => self
  | DumpFailed => {| sent_headlines := sent_headlines self; disk := None |}
  end.

Definition mark_as_sent (cfg : Config) (io : write_outcome)
    (self : NewsFilter) (title : string) : NewsFilter :=
  save_sent_headlines cfg io
    {| sent_headlines := sent_headlines self ++ [title]; disk := disk self |}.

(** ** Duplicate detection *)

Definition Qgtb (a b : Q) : bool := negb (Qle_bool a b).

Definition similarity_ratio (str1 str2 : string) : Q :=
  if String.eqb str1 "" || String.eqb str2 "" then 0.0%Q
  else
    let words1 : gset string := list_to_set (PyStr.split str1) in
    let words2 : gset string := list_to_set (PyStr.split str2) in
    if bool_decide (words1 = ∅) || bool_decide (words2 = ∅) then 0.0%Q
    else
      let intersection := size (words1 ∩ words2) in
      let union := size (words1 ∪ words2) in
      if (0 <? union)%nat
      then (Z.of_nat intersection # Pos.of_nat union)
      else 0.0%Q.

Definition normalize_title (title : string) : string :=
  PyStr.strip (PyStr.sub_non_word_space (PyStr.lower title)).

(** The loop of [is_duplicate] over the stored titles. *)
Fixpoint similar_to_any (normalized_title : string) (sent : list string) : bool :=
  match sent with
  | [] => false
  | sent_title :: rest =>
      let normalized_sent := normalize_title sent_title in
      if Qgtb (similarity_ratio normalized_title normalized_sent) 0.85%Q
      then true
      else similar_to_any normalized_title rest
  end.

Definition is_duplicate (self : NewsFilter) (title : string) : bool :=
  if bool_decide (title ∈ sent_headlines self) then true
  else similar_to_any (normalize_title title) (sent_headlines self).

(** [is_duplicate] on whatever the article holds as its title: a value that
    is not a [str] is in no history and has no [lower]. *)
Definition is_duplicate_value (self : NewsFilter) (title : value) : result bool :=
  match title with
  | VStr s => Ok (is_duplicate self s)
  | _ => Raise AttributeError
  end.

(** ** Relevance scoring *)

Fixpoint contains_keywords (text : string) (keywords : list string) : bool :=
  let text_lower := PyStr.lower text in
  match keywords with
  | [] => false
  | keyword :: rest =>
      if PyStr.contains (PyStr.lower keyword) text_lower then true
      else contains_keywords text rest
  end.

Definition Qcount (sub s : string) : Q := inject_Z (Z.of_nat (PyStr.count sub s)).

(** The loop over the category's keywords. *)
Fixpoint keyword_score (title summary : string) (keywords : list string)
    (score : Q) : Q :=
  match keywords with
  | [] => score
  | keyword :: rest =>
      let keyword_lower := PyStr.lower keyword in
      let title_matches := Qcount keyword_lower title in
      let summary_matches := Qcount keyword_lower summary in
      let score := (score + title_matches * 2.0)%Q in
      let score := (score + summary_matches * 1.0)%Q in
      keyword_score title summary rest score
  end.

Definition important_terms : list (string * Q) :=
  [("breaking", 3.0); ("urgent", 3.0); ("alert", 2.5); ("crash", 2.5);
   ("surge", 2.0); ("rally", 2.0); ("record", 2.0); ("high", 1.5);
   ("low", 1.5); ("regulation", 2.0); ("ban", 2.5); ("approval", 2.0)]%Q.

(** The loop over the table of important terms. *)
Fixpoint bonus_score (combined_text : string) (terms : list (string * Q))
    (score : Q) : Q :=
  match terms with
  | [] => score
  | (term, weight) :: rest =>
      bonus_score combined_text rest
        (if PyStr.contains term combined_text then (score + weight)%Q else score)
  end.

Definition calculate_relevance_score (cfg : Config) (article : Article)
    : result Q :=
  let score := 0.0%Q in
  title ← Py.lower (Py.get article "title" (VStr ""));
  summary ← Py.lower (Py.get article "summary" (VStr ""));
  let combined_text := title ++ " " ++ summary in
  category ← Py.getitem article "category";
  let keywords :=
    if Py.eq_str category "crypto" then CRYPTO_KEYWORDS cfg
    else GOLD_KEYWORDS cfg in
  let score := keyword_score title summary keywords score in
  let score := bonus_score combined_text important_terms score in
  mret score.

(** ** The filter pipeline *)

(** The keyword gate of [filter_articles]: the value of [has_keywords]
    once the category branch has run. *)
Definition has_keywords (cfg : Config) (article : Article) : result bool :=
  let title_and_summary :=
    Py.format (Py.get article "title" (VStr "")) ++ " "
    ++ Py.format (Py.get article "summary" (VStr "")) in
  category ← Py.getitem article "category";
  if Py.eq_str category "crypto" then
    let has_keywords := contains_keywords title_and_summary (CRYPTO_KEYWORDS cfg) in
    if negb has_keywords then
      source ← Py.lower (Py.get article "source" (VStr ""));
      mret (PyStr.contains "coindesk" source
            || PyStr.contains "cointelegraph" source
            || PyStr.contains "decrypt" source)
    else mret has_keywords
  else
    let has_keywords := contains_keywords title_and_summary (GOLD_KEYWORDS cfg) in
    if negb has_keywords then
      source ← Py.lower (Py.get article "source" (VStr ""));
      mret (PyStr.contains "mining" source)
    else mret has_keywords.

(** The body of the [try] for one article.  It returns the article as the
    body leaves it and whether it was appended to [filtered_articles]; the
    only assignment, to [relevance_score], is followed by nothing that can
    raise, so an article whose body raises is left as it was. *)
Definition filter_article (cfg : Config) (self : NewsFilter) (article : Article)
    : result (Article * bool) :=
  if negb (Py.truthy (Py.get article "title" VNone)) then mret (article, false)
  else
    title ← Py.getitem article "title";
    duplicate ← is_duplicate_value self title;
    if (duplicate : bool) then mret (article, false)
    else
      has ← has_keywords cfg article;
      if negb (has : bool) then mret (article, false)
      else
        relevance_score ← calculate_relevance_score cfg article;
        let article := <["relevance_score" := VFloat relevance_score]> article in
        if Qle_bool 0.1%Q relevance_score then mret (article, true)
        else mret (article, false).

(** The [for] loop with its [except Exception: continue].  The first list
    is the input as the loop leaves it (accepted and scored articles carry
    their annotation), the second is [filtered_articles]. *)
Fixpoint filter_loop (cfg : Config) (self : NewsFilter) (articles : list Article)
    : list Article * list Article :=
  match articles with
  | [] => ([], [])
  | article :: rest =>
      let '(article, appended) :=
        match filter_article cfg self article with
        | Ok r => r
        | Raise _ => (article, false)
        end in
      let '(articles, filtered_articles) := filter_loop cfg self rest in
      (article :: articles,
       if appended then article :: filtered_articles else filtered_articles)
  end.

(** [x.get('relevance_score', 0)] as a sort key.  Keys are compared with
    [<], which raises [TypeError] on operands that are not numbers; the
    model raises as soon as one key is not a float. *)
Definition sort_key (x : Article) : result Q :=
  match x !! "relevance_score" with
  | None => Ok 0%Q
  | Some (VFloat q) => Ok q
  | Some _ => Raise TypeError
  end.

Fixpoint sort_keys (l : list Article) : result (list (Q * Article)) :=
  match l with
  | [] => mret []
  | x :: l' =>
      k ← sort_key x;
      keyed ← sort_keys l';
      mret ((k, x) :: keyed)
  end.

(** [list.sort(key=..., reverse=True)] is a stable sort: elements come out
    by decreasing key, and elements of equal key in the order they had.
    [insert_desc] puts an element after every larger key and before every
    key not larger. *)
Fixpoint insert_desc (k : Q) (x : Article) (l : list (Q * Article))
    : list (Q * Article) :=
  match l with
  | [] => [(k, x)]
  | (k', y) :: l' =>
      if Qle_bool k' k then (k, x) :: l else (k', y) :: insert_desc k x l'
  end.

Fixpoint sort_desc (l : list (Q * Article)) : list (Q * Article) :=
  match l with
  | [] => []
  | (k, x) :: l' => insert_desc k x (sort_desc l')
  end.

Definition sort_by_relevance (l : list Article) : result (list Article) :=
  keyed ← sort_keys l;
  mret (map snd (sort_desc keyed)).

Definition filter_articles (cfg : Config) (self : NewsFilter)
    (articles : list Article)
    : result (NewsFilter * list Article * list Article) :=
  let '(articles, filtered_articles) := filter_loop cfg self articles in
  filtered_articles ← sort_by_relevance filtered_articles;
  let max_articles := min 6 (length filtered_articles) in
  let filtered_articles := take max_articles filtered_articles in
  mret (self, articles, filtered_articles).

(** What the caller receives: the returned list, or [None] if the call
    raised. *)
Definition returned (r : result (NewsFilter * list Article * list Article))
    : option (list Article) :=
  match r with
  | Ok (_, _, out) => Some out
  | Raise _ => None
  end.

(** [filtered_articles] as the loop leaves it, before ranking. *)
Definition accepted (cfg : Config) (self : NewsFilter) (articles : list Article)
    : list Article :=
  snd (filter_loop cfg self articles).

Definition mk_article (title summary category source : string) : Article :=
  <["title" := VStr title]> (<["summary" := VStr summary]>
  (<["category" := VStr category]> (<["source" := VStr source]> ∅))).

Definition empty_filter : NewsFilter := {| sent_headlines := []; disk := None |}.

(** The score an article carries. *)
Definition score_of (x : Article) : Q :=
  match x !! "relevance_score" with
  | Some (VFloat q) => q
  | _ => 0%Q
  end.

(** The articles of [l] whose score equals [q], in the order of [l]. *)
Definition ties (q : Q) (l : list Article) : list Article :=
  List.filter (fun x => Qeq_bool (score_of x) q) l.

(** [x] ranks no lower than [y]. *)
Definition ranks_before (x y : Article) : Prop := (score_of y <= score_of x)%Q.

(** The same two notions on the decorated list that [sort_desc] works on. *)
Definition key_ge (p1 p2 : Q * Article) : Prop := (fst p2 <= fst p1)%Q.

Definition key_is (q : Q) (p : Q * Article) : bool := Qeq_bool (fst p) q.

Definition decorate (x : Article) : Q * Article := (score_of x, x).

Definition consistent (p : Q * Article) : Prop := fst p = score_of (snd p).

(** [l] ranked: what the sort makes of a list whose members all carry a
    float score. *)
Definition ranked (l : list Article) : list Article :=
  map snd (sort_desc (map decorate l)).

(** An article that carries a float score. *)
Definition scored (x : Article) : Prop :=
  ∃ q, x !! "relevance_score" = Some (VFloat q).

(** The article with the score [calculate_relevance_score] gives it. *)
Definition annotate (cfg : Config) (a : Article) : Article :=
  match calculate_relevance_score cfg a with
  | Ok q => <["relevance_score" := VFloat q]> a
  | Raise _ => a
  end.

(** The titles of a list of articles. *)
Definition titles (l : list Article) : list (option value) :=
  map (fun x => x !! "title") l.

(** The result is the score [q], up to the equality of rationals. *)
Definition score_is (r : result Q) (q : Q) : bool :=
  match r with
  | Ok x => Qeq_bool x q
  | Raise _ => false
  end.

(** The score returned, 0 if the call raised. *)
Definition score_or_zero (r : result Q) : Q :=
  match r with
  | Ok x => x
  | Raise _ => 0%Q
  end.

(** A field that is a [str] or is not there. *)
Definition str_or_missing (o : option value) : Prop :=
  match o with
  | None | Some (VStr _) => True
  | Some _ => False
  end.

(** The keyword list the category of an article selects. *)
Definition category_keywords (cfg : Config) (a : Article) : list string :=
  if Py.eq_str (Py.get a "category" VNone) "crypto" then CRYPTO_KEYWORDS cfg
  else GOLD_KEYWORDS cfg.

(** The history after the titles [ts] were marked as sent, every save
    succeeding. *)
Definition mark_all_as_sent (cfg : Config) (self : NewsFilter) (ts : list string)
    : NewsFilter :=
  fold_left (mark_as_sent cfg Written) ts self.

(** What a restart would load. *)
Definition persisted (self : NewsFilter) : list string :=
  load_sent_headlines (disk self).

(** ** Occurrences of keywords *)

Fixpoint has_space (s : string) : bool :=
  match s with
  | EmptyString => false
  | String c s' => Ascii.eqb c " " || has_space s'
  end.

(** A keyword that, lowercased, is not empty and holds no space. *)
Definition plain_keyword (k : string) : Prop :=
  PyStr.lower k ≠ "" ∧ has_space (PyStr.lower k) = false.

(** How many times the keywords of a list occur in [word], each keyword
    counted as [str.count] counts it. *)
Definition nested_occurrences (keywords : list string) (word : string) : nat :=
  sum_list (map (fun k => PyStr.count (PyStr.lower k) word) keywords).

(** ** The duplicate rule as the design note words it *)

Module Spec.

(** Lowercase, then strip every character that is neither a word
    character nor whitespace. *)
Definition normalized (title : string) : string :=
  PyStr.sub_non_word_space (PyStr.lower title).

(** The set of whitespace-separated words. *)
Definition word_set (s : string) : gset string := list_to_set (PyStr.split s).

(** |intersection| / |union|, and 0.0 when either set is empty. *)
Definition jaccard (A B : gset string) : Q :=
  if decide (A = ∅ ∨ B = ∅) then 0.0%Q
  else (Z.of_nat (size (A ∩ B)) # Pos.of_nat (size (A ∪ B))).

(** An exact match with a stored title, or a similarity above 0.85 with
    one. *)
Definition duplicate (history : list string) (title : string) : Prop :=
  title ∈ history ∨
  ∃ stored, stored ∈ history ∧
    (0.85 < jaccard (word_set (normalized title)) (word_set (normalized stored)))%Q.

End Spec.

(** ** The rest of the history's life cycle *)

(** [NewsFilter.__init__]: the history starts as what the file holds. *)
Definition new_filter (d : option (list string)) : NewsFilter :=
  {| sent_headlines := load_sent_headlines d; disk := d |}.

(** [NewsScheduler.cleanup_old_data] ([scheduler.py]) on the filter the
    scheduler owns: the history is cut to its most recent entries, then
    saved.  The status message sent afterwards is not modelled. *)
Definition cleanup_old_data (cfg : Config) (io : write_outcome)
    (self : NewsFilter) : NewsFilter :=
  save_sent_headlines cfg io
    {| sent_headlines :=
         Py.slice_last (MAX_STORED_HEADLINES cfg) (sent_headlines self);
       disk := disk self |}.

(** The two operations that ever touch the history, each with what
    happens to the file during its save. *)
Inductive history_op : Type :=
| MarkAsSent (title : string) (io : write_outcome)
| CleanupOldData (io : write_outcome).

Definition apply_op (cfg : Config) (self : NewsFilter) (op : history_op)
    : NewsFilter :=
  match op with
  | MarkAsSent title io => mark_as_sent cfg io self title
  | CleanupOldData io => cleanup_old_data cfg io self
  end.

Definition run_ops (cfg : Config) (self : NewsFilter) (ops : list history_op)
    : NewsFilter :=
  fold_left (apply_op cfg) ops self.

(** The [for] loop of [NewsScheduler.fetch_and_send_news]
    ([scheduler.py]) over the filtered articles, as far as the history goes.
    [delivery i] is what the [i]-th article meets: whether [send_message]
    returns true for it, and what happens to the file when it is then
    marked as sent.  An article without a title makes [article['title']]
    raise, which the loop catches.  A title that is not a [str] is outside
    the model, whose history holds strings: the result is then [None]. *)
Fixpoint send_alerts (cfg : Config) (delivery : nat -> bool * write_outcome)
    (i : nat) (self : NewsFilter) (filtered_articles : list Article)
    : option NewsFilter :=
  match filtered_articles with
  | [] => Some self
  | article :: rest =>
      let '(delivered, io) := delivery i in
      if delivered then
        match article !! "title" with
        | Some (VStr title) =>
            send_alerts cfg delivery (S i) (mark_as_sent cfg io self title) rest
        | Some _ => None
        | None => send_alerts cfg delivery (S i) self rest
        end
      else send_alerts cfg delivery (S i) self rest
  end.

(** The word set [is_duplicate] compares titles by. *)
Definition title_words (title : string) : gset string :=
  list_to_set (PyStr.split (normalize_title title)).

(** The sum of the weights of a table of terms. *)
Definition total_weight (terms : list (string * Q)) : Q :=
  foldr (fun p acc => (snd p + acc)%Q) 0%Q terms.

(** A float that is a whole number of halves. *)
Definition half_integer (q : Q) : Prop := ∃ z : Z, (q == z # 2)%Q.

(** ** Parsing a feed into article records ([fetch_news.py]) *)

Module Fetch.

(** What the date handling of one entry comes to: the entry carries no
    date; it carries one, [pub_date], which at the time of the call is or
    is not more than six hours old; or building the [datetime] raises. *)
Inductive date_outcome : Type :=
| NoDate
| Dated (pub_date : string) (older_than_6h : bool)
| DateRaises.

(** A feed entry: its fields and the outcome of its date handling. *)
Record Entry : Type := {
  fields : Article;
  date : date_outcome
}.

(** A parsed feed: [feed.entries], and [feed.feed] as a [dict]. *)
Record Feed : Type := {
  entries : list Entry;
  feed : Article
}.

(** [v.strip()]; only a [str] has the method. *)
Definition strip (v : value) : result value :=
  match v with
  | VStr s => Ok (VStr (PyStr.strip s))
  | _ => Raise AttributeError
  end.

(** [l[:n]] *)
Definition slice_first {A : Type} (n : Z) (l : list A) : list A :=
  if (0 <=? n)%Z then take (Z.to_nat n) l
  else take (length l - Z.to_nat (- n)) l.

(** The body of the [try] for one entry: [None] is a [continue]. *)
Definition parse_entry (source : Article) (category : string) (entry : Entry)
    : result (option Article) :=
  pub_date ← match date entry with
             | NoDate => Ok VNone
             | Dated d _ => Ok (VObj d true)
             | DateRaises => Raise TypeError
             end;
  if match date entry with Dated _ older => older | _ => false end
  then mret None
  else
    title ← strip (Py.get (fields entry) "title" (VStr ""));
    summary ← strip (Py.get (fields entry) "summary" (VStr ""));
    let article : Article :=
      <["title" := title]>
        (<["link" := Py.get (fields entry) "link" (VStr "")]>
           (<["summary" := summary]>
              (<["published" := pub_date]>
                 (<["category" := VStr category]>
                    (<["source" := Py.get source "title" (VStr "Unknown")]> ∅))))) in
    if negb (Py.truthy title)
       || negb (Py.truthy (Py.get (fields entry) "link" (VStr "")))
    then mret None
    else mret (Some article).

(** The loop over the entries with its [except Exception: continue]. *)
Fixpoint parse_entries (source : Article) (category : string)
    (entries : list Entry) : list Article :=
  match entries with
  | [] => []
  | entry :: rest =>
      match parse_entry source category entry with
      | Ok (Some article) => article :: parse_entries source category rest
      | Ok None | Raise _ => parse_entries source category rest
      end
  end.

(** [parse_articles]; [max_articles_per_fetch] is
    [self.config.MAX_ARTICLES_PER_FETCH], and [None] a feed that is falsy
    or has no [entries]. *)
Definition parse_articles (max_articles_per_fetch : Z) (feed : option Feed)
    (category : string) : list Article :=
  match feed with
  | None => []
  | Some f =>
      parse_entries (Fetch.feed f) category
        (slice_first max_articles_per_fetch (entries f))
  end.

End Fetch.

(** A feed with two entries, used to exercise the parser. *)
Definition sample_feed : Fetch.Feed := {|
  Fetch.entries :=
    [ {| Fetch.fields := <["title" := VStr "  Gold rallies "]>
                           (<["link" := VStr "https://example.org/1"]> ∅);
         Fetch.date := Fetch.NoDate |};
      {| Fetch.fields := <["title" := VStr "   "]>
                           (<["link" := VStr "https://example.org/2"]> ∅);
         Fetch.date := Fetch.Dated "2024-01-01 10:00:00" false |} ];
  Fetch.feed := <["title" := VStr "Kitco News"]> ∅
|}.

(** What the parser makes of the first entry of [sample_feed]. *)
Definition sample_article : Article :=
  <["link" := VStr "https://example.org/1"]>
    (<["published" := VNone]>
       (mk_article "Gold rallies" "" "gold" "Kitco News")).

(** * Properties *)

(** ** Ranking: the stable descending sort *)

Section Ranking.

Implicit Types (k q : Q) (x : Article) (l : list (Q * Article)).

Lemma insert_desc_perm k x l : insert_desc k x l ≡ₚ (k, x) :: l.
Proof.
  induction l as [|[k' y] l IH]; simpl; [done|].
  destruct (Qle_bool k' k); [done|].
  rewrite IH. apply Permutation_swap.
Qed.

Lemma sort_desc_perm l : sort_desc l ≡ₚ l.
Proof.
  induction l as [|[k x] l IH]; simpl; [done|].
  by rewrite insert_desc_perm, IH.
Qed.

Lemma insert_desc_sorted k x l :
  StronglySorted key_ge l → StronglySorted key_ge (insert_desc k x l).
Proof.
  induction l as [|[k' y] l IH]; simpl; intros Hs.
  - repeat constructor.
  - apply StronglySorted_cons in Hs as [Hall Hs].
    destruct (Qle_bool k' k) eqn:Hle.
    + apply Qle_bool_iff in Hle.
      apply StronglySorted_cons. split.
      * constructor; [exact Hle|].
        eapply Forall_impl; [exact Hall|].
        intros p Hp. unfold key_ge in *. simpl in *.
        eapply Qle_trans; eassumption.
      * apply StronglySorted_cons. done.
    + apply StronglySorted_cons. split; [|by apply IH].
      rewrite insert_desc_perm. constructor; [|done].
      unfold key_ge. simpl. apply Qlt_le_weak, Qnot_le_lt.
      intros Hc. apply Qle_bool_iff in Hc. congruence.
Qed.

Lemma sort_desc_sorted l : StronglySorted key_ge (sort_desc l).
Proof.
  induction l as [|[k x] l IH]; simpl; [constructor|].
  by apply insert_desc_sorted.
Qed.

Lemma insert_desc_stable q k x l :
  List.filter (key_is q) (insert_desc k x l)
  = List.filter (key_is q) ((k, x) :: l).
Proof.
  induction l as [|[k' y] l IH]; [done|].
  cbn [insert_desc].
  destruct (Qle_bool k' k) eqn:Hle; [done|].
  cbn [List.filter]. rewrite IH. cbn [List.filter].
  change (key_is q (k', y)) with (Qeq_bool k' q).
  change (key_is q (k, x)) with (Qeq_bool k q).
  destruct (Qeq_bool k' q) eqn:E1, (Qeq_bool k q) eqn:E2; try done.
  apply Qeq_bool_iff in E1, E2.
  assert (Qle_bool k' k = true); [|congruence].
  apply Qle_bool_iff. rewrite E1, E2. apply Qle_refl.
Qed.

Lemma sort_desc_stable q l :
  List.filter (key_is q) (sort_desc l) = List.filter (key_is q) l.
Proof.
  induction l as [|[k x] l IH]; [done|].
  cbn [sort_desc]. rewrite insert_desc_stable.
  cbn [List.filter]. by rewrite IH.
Qed.

End Ranking.

Section Ranked.

Implicit Types (q : Q) (x : Article) (l : list Article).

Lemma decorate_consistent l : Forall consistent (map decorate l).
Proof. induction l; constructor; done. Qed.

Lemma sort_desc_consistent kl : Forall consistent kl → Forall consistent (sort_desc kl).
Proof. intros H. by rewrite sort_desc_perm. Qed.

Lemma sorted_undecorate kl :
  Forall consistent kl → StronglySorted key_ge kl →
  StronglySorted ranks_before (map snd kl).
Proof.
  induction 1 as [|[k x] kl Hc Hall IH]; intros Hs; simpl; [constructor|].
  apply StronglySorted_cons in Hs as [Hx Hs]. constructor; [by apply IH|].
  apply Forall_forall. intros y Hy.
  apply list_elem_of_fmap in Hy as ([k' y'] & -> & Hin).
  rewrite Forall_forall in Hx, Hall.
  specialize (Hx _ Hin). specialize (Hall _ Hin).
  unfold key_ge, consistent, ranks_before in *. simpl in *. by subst.
Qed.

Lemma ties_undecorate q kl :
  Forall consistent kl →
  ties q (map snd kl) = map snd (List.filter (key_is q) kl).
Proof.
  induction 1 as [|[k x] kl Hc Hall IH]; [done|].
  unfold ties in *. cbn [map List.filter]. rewrite IH.
  unfold consistent in Hc. simpl in Hc. subst k.
  change (key_is q (score_of x, x)) with (Qeq_bool (score_of x) q).
  cbn [snd]. by destruct (Qeq_bool (score_of x) q).
Qed.

Lemma undecorate l : map snd (map decorate l) = l.
Proof. induction l as [|x l IH]; simpl; [done|]. by rewrite IH. Qed.

Lemma ranked_perm l : ranked l ≡ₚ l.
Proof. unfold ranked. by rewrite sort_desc_perm, undecorate. Qed.

Lemma ranked_sorted l : StronglySorted ranks_before (ranked l).
Proof.
  apply sorted_undecorate.
  - apply sort_desc_consistent, decorate_consistent.
  - apply sort_desc_sorted.
Qed.

Lemma ranked_stable q l : ties q (ranked l) = ties q l.
Proof.
  unfold ranked.
  rewrite ties_undecorate by apply sort_desc_consistent, decorate_consistent.
  rewrite sort_desc_stable.
  rewrite <- ties_undecorate by apply decorate_consistent.
  by rewrite undecorate.
Qed.

Lemma sort_keys_scored l :
  Forall scored l → sort_keys l = Ok (map decorate l).
Proof.
  induction 1 as [|x l [q Hq] _ IH]; [done|].
  cbn [sort_keys]. unfold sort_key. rewrite Hq. simpl. rewrite IH. simpl.
  unfold decorate at 2, score_of. by rewrite Hq.
Qed.

Lemma sort_by_relevance_scored l :
  Forall scored l → sort_by_relevance l = Ok (ranked l).
Proof.
  intros H. unfold sort_by_relevance. by rewrite sort_keys_scored.
Qed.

End Ranked.

(** ** The per-article body *)

Ltac unfold_result :=
  unfold mbind, result_bind, mret, result_ret, bind in *.

Section Body.

Variables (cfg : Config) (self : NewsFilter).
Implicit Types (a x : Article) (v : value).

(** What an appended article went through. *)
Lemma filter_article_appended a a' :
  filter_article cfg self a = Ok (a', true) →
  ∃ s q,
    a !! "title" = Some (VStr s) ∧ s ≠ "" ∧
    is_duplicate self s = false ∧
    has_keywords cfg a = Ok true ∧
    calculate_relevance_score cfg a = Ok q ∧
    Qle_bool 0.1 q = true ∧
    a' = <["relevance_score" := VFloat q]> a.
Proof.
  unfold filter_article, Py.get, Py.getitem. unfold_result.
  destruct (a !! "title") as [v|] eqn:Ht; simpl; [|congruence].
  destruct (Py.truthy v) eqn:Htr; simpl; [|congruence].
  destruct v as [|s|q|t b]; simpl; try congruence.
  destruct (is_duplicate self s) eqn:Hdup; [congruence|].
  destruct (has_keywords cfg a) as [[|]|e] eqn:Hk; simpl; try congruence.
  destruct (calculate_relevance_score cfg a) as [q|e] eqn:Hs; simpl;
    [|congruence].
  destruct (Qle_bool 0.1 q) eqn:Hq; intros [= <-].
  exists s, q. repeat split; try done.
  intros ->. simpl in Htr. done.
Qed.

(** The body either leaves the article alone or, every gate passed,
    annotates it. *)
Lemma filter_article_result a a' b :
  filter_article cfg self a = Ok (a', b) →
  (a' = a ∧ b = false) ∨
  ∃ t q,
    Py.truthy (Py.get a "title" VNone) = true ∧
    Py.getitem a "title" = Ok t ∧
    is_duplicate_value self t = Ok false ∧
    has_keywords cfg a = Ok true ∧
    calculate_relevance_score cfg a = Ok q ∧
    a' = <["relevance_score" := VFloat q]> a ∧ b = Qle_bool 0.1 q.
Proof.
  unfold filter_article. unfold_result.
  destruct (Py.truthy (Py.get a "title" VNone)) eqn:Htr; simpl;
    [|intros [= <- <-]; by left].
  destruct (Py.getitem a "title") as [t|e] eqn:Ht; [|congruence].
  destruct (is_duplicate_value self t) as [[|]|e] eqn:Hd; simpl;
    [intros [= <- <-]; by left| |congruence].
  destruct (has_keywords cfg a) as [[|]|e] eqn:Hk; simpl;
    [|intros [= <- <-]; by left|congruence].
  destruct (calculate_relevance_score cfg a) as [q|e] eqn:Hs; simpl;
    [|congruence].
  intros H. right. exists t, q.
  by destruct (Qle_bool 0.1 q); injection H as <- <-.
Qed.

(** Nothing the body reads is the annotation it writes. *)
Lemma get_annotated a v k dflt :
  k ≠ "relevance_score" →
  Py.get (<["relevance_score" := v]> a) k dflt = Py.get a k dflt.
Proof. intros Hk. unfold Py.get. by rewrite lookup_insert_ne. Qed.

Lemma getitem_annotated a v k :
  k ≠ "relevance_score" →
  Py.getitem (<["relevance_score" := v]> a) k = Py.getitem a k.
Proof. intros Hk. unfold Py.getitem. by rewrite lookup_insert_ne. Qed.

Lemma has_keywords_annotated a v :
  has_keywords cfg (<["relevance_score" := v]> a) = has_keywords cfg a.
Proof.
  unfold has_keywords.
  by rewrite !get_annotated, getitem_annotated.
Qed.

Lemma calculate_relevance_score_annotated a v :
  calculate_relevance_score cfg (<["relevance_score" := v]> a)
  = calculate_relevance_score cfg a.
Proof.
  unfold calculate_relevance_score.
  by rewrite !get_annotated, getitem_annotated.
Qed.

(** Running the body on an article it has already been through changes
    nothing. *)
Lemma filter_article_again a a' b :
  filter_article cfg self a = Ok (a', b) →
  filter_article cfg self a' = Ok (a', b).
Proof.
  intros H.
  destruct (filter_article_result _ _ _ H)
    as [[-> ->]|(t & q & Htr & Ht & Hd & Hk & Hq & -> & ->)]; [done|].
  unfold filter_article. cbv zeta.
  rewrite !get_annotated, getitem_annotated, has_keywords_annotated,
    calculate_relevance_score_annotated by done.
  unfold_result. rewrite Htr, Ht, Hd, Hk, Hq. simpl.
  rewrite insert_insert_eq. by destruct (Qle_bool 0.1 q).
Qed.

End Body.

(** ** The loop, the ranking and the cap *)

Section Pipeline.

Variables (cfg : Config) (self : NewsFilter).
Implicit Types (a x : Article) (l : list Article).

Lemma accepted_cons a l :
  accepted cfg self (a :: l)
  = match filter_article cfg self a with
    | Ok (a', true) => a' :: accepted cfg self l
    | _ => accepted cfg self l
    end.
Proof.
  unfold accepted. cbn [filter_loop].
  destruct (filter_article cfg self a) as [[a' [|]]|e];
    by destruct (filter_loop cfg self l).
Qed.

(** Each article is judged on its own. *)
Lemma accepted_app l1 l2 :
  (accepted cfg self (l1 ++ l2) = accepted cfg self l1 ++ accepted cfg self l2)%list.
Proof.
  induction l1 as [|a l1 IH]; [done|].
  rewrite <- app_comm_cons, !accepted_cons, IH.
  by destruct (filter_article cfg self a) as [[a' [|]]|e].
Qed.

Lemma accepted_origin x l :
  x ∈ accepted cfg self l →
  ∃ a, a ∈ l ∧ filter_article cfg self a = Ok (x, true).
Proof.
  induction l as [|a l IH]; [by intros ?%elem_of_nil|].
  rewrite accepted_cons.
  destruct (filter_article cfg self a) as [[a' [|]]|e] eqn:Ha; intros Hx.
  - apply elem_of_cons in Hx as [->|Hx].
    + exists a. split; [left|done].
    + destruct (IH Hx) as (a0 & ? & ?). exists a0. split; [by right|done].
  - destruct (IH Hx) as (a0 & ? & ?). exists a0. split; [by right|done].
  - destruct (IH Hx) as (a0 & ? & ?). exists a0. split; [by right|done].
Qed.

Lemma accepted_scored l : Forall scored (accepted cfg self l).
Proof.
  apply Forall_forall. intros x Hx.
  apply accepted_origin in Hx as (a & _ & Ha).
  apply filter_article_appended in Ha as (s & q & _ & _ & _ & _ & _ & _ & ->).
  exists q. apply lookup_insert_eq.
Qed.

(** The whole call, in closed form. *)
Lemma filter_articles_eq l :
  filter_articles cfg self l
  = Ok (self, (filter_loop cfg self l).1, take 6 (ranked (accepted cfg self l))).
Proof.
  unfold filter_articles.
  pose proof (accepted_scored l) as Hs. unfold accepted in *.
  destruct (filter_loop cfg self l) as [l' acc]. cbn [fst snd] in *.
  rewrite sort_by_relevance_scored by done.
  unfold_result. do 2 f_equal.
  destruct (decide (6 ≤ length (ranked acc))%nat).
  - by rewrite Nat.min_l.
  - rewrite Nat.min_r by lia. by rewrite !firstn_all2 by lia.
Qed.

Lemma filter_loop_again l :
  filter_loop cfg self (filter_loop cfg self l).1 = filter_loop cfg self l.
Proof.
  induction l as [|a l IH]; [done|].
  cbn [filter_loop].
  destruct (filter_article cfg self a) as [[a' b]|e] eqn:Ha.
  - destruct (filter_loop cfg self l) as [l' acc] eqn:Hl. simpl in *.
    rewrite (filter_article_again _ _ _ _ _ Ha). by rewrite IH.
  - destruct (filter_loop cfg self l) as [l' acc] eqn:Hl. simpl in *.
    rewrite Ha. by rewrite IH.
Qed.

Lemma sorted_lookup (R : relation Article) l i j x y :
  StronglySorted R l → l !! i = Some x → l !! j = Some y → (i < j)%nat → R x y.
Proof.
  intros Hs. revert i j. induction Hs as [|z l Hs IH Hall]; intros i j.
  - by rewrite lookup_nil.
  - destruct i as [|i], j as [|j]; simpl; try lia.
    + intros [= ->] Hy _. rewrite Forall_forall in Hall.
      apply Hall. by eapply list_elem_of_lookup_2.
    + intros Hx Hy Hij. apply (IH i j); [done|done|lia].
Qed.

Lemma ties_app q l1 l2 : (ties q (l1 ++ l2) = ties q l1 ++ ties q l2)%list.
Proof. apply List.filter_app. Qed.

End Pipeline.

(** ** Claims about the pipeline *)

(** C4.  The list [filter_articles] returns is ordered by decreasing
    [relevance_score]: an article with a strictly higher score stands
    before one with a lower score, and articles of equal score keep the
    order in which they were accepted.  It holds at most 6 articles, namely
    [min 6 n] of the [n] accepted ones, and no article left out scores
    higher than one returned. *)
Theorem filter_articles_ranked (cfg : Config) (self : NewsFilter)
    (articles : list Article) :
  ∃ out,
    returned (filter_articles cfg self articles) = Some out ∧
    StronglySorted ranks_before out ∧
    (∀ i j x y, out !! i = Some x → out !! j = Some y →
                (score_of y < score_of x)%Q → (i < j)%nat) ∧
    (∀ q, ties q out `prefix_of` ties q (accepted cfg self articles)) ∧
    length out = min 6 (length (accepted cfg self articles)) ∧
    (length out ≤ 6)%nat ∧
    ∃ rest, (accepted cfg self articles ≡ₚ out ++ rest)%list ∧
            ∀ x y, x ∈ out → y ∈ rest → ranks_before x y.
Proof.
  rewrite filter_articles_eq. cbn [returned].
  set (acc := accepted cfg self articles).
  pose proof (ranked_sorted acc) as Hs.
  rewrite <- (take_drop 6 (ranked acc)) in Hs.
  eexists. split; [reflexivity|]. repeat split.
  - by apply StronglySorted_app_1_l in Hs.
  - intros i j x y Hx Hy Hlt.
    destruct (decide (i < j)%nat) as [|Hge]; [done|exfalso].
    destruct (decide (i = j)) as [->|Hne].
    + rewrite Hx in Hy. injection Hy as ->. by apply Qlt_irrefl in Hlt.
    + apply StronglySorted_app_1_l in Hs.
      assert (ranks_before y x) as Hr
        by (eapply sorted_lookup; [exact Hs|exact Hy|exact Hx|lia]).
      unfold ranks_before in Hr. by apply Qle_not_lt in Hr.
  - intros q. rewrite <- (ranked_stable q acc).
    rewrite <- (take_drop 6 (ranked acc)) at 2. rewrite ties_app.
    by apply prefix_app_r.
  - rewrite length_take. by rewrite (Permutation_length (ranked_perm acc)).
  - rewrite length_take. lia.
  - exists (drop 6 (ranked acc)). split.
    + by rewrite take_drop, ranked_perm.
    + intros x y Hx Hy. by eapply StronglySorted_app_1_elem_of.
Qed.

(** C7.  [filter_articles] returns a list for every input list: it never
    raises.  An article whose processing raises is skipped: the call
    returns what it returns for the list without that article. *)
Theorem filter_articles_never_raises (cfg : Config) (self : NewsFilter)
    (articles : list Article) :
  (∃ out, returned (filter_articles cfg self articles) = Some out) ∧
  ∀ pre a post,
    articles = (pre ++ a :: post)%list →
    is_raise (filter_article cfg self a) = true →
    returned (filter_articles cfg self articles)
    = returned (filter_articles cfg self (pre ++ post)).
Proof.
  split.
  - rewrite filter_articles_eq. by eexists.
  - intros pre a post -> Hr. rewrite !filter_articles_eq. cbn [returned].
    rewrite !accepted_app, accepted_cons.
    by destruct (filter_article cfg self a).
Qed.

(** C8.  [filter_articles] hands the filter object back unchanged (the
    sent-title history is not touched), and a second call on the same list,
    as the first call left it, returns the same output. *)
Theorem filter_articles_idempotent (cfg : Config) (self : NewsFilter)
    (articles : list Article) :
  ∃ articles' out,
    filter_articles cfg self articles = Ok (self, articles', out) ∧
    filter_articles cfg self articles' = Ok (self, articles', out).
Proof.
  exists (filter_loop cfg self articles).1,
         (take 6 (ranked (accepted cfg self articles))).
  split; [apply filter_articles_eq|].
  rewrite filter_articles_eq. unfold accepted.
  by rewrite filter_loop_again.
Qed.

(** C2, as amended.  Every article [filter_articles] returns is an input
    article, annotated with its score, whose title is a non-empty string:
    an article whose title is missing or empty is never returned. *)
Theorem filter_articles_requires_title (cfg : Config) (self : NewsFilter)
    (articles out : list Article) (x : Article) :
  returned (filter_articles cfg self articles) = Some out →
  x ∈ out →
  ∃ a s, a ∈ articles ∧ a !! "title" = Some (VStr s) ∧ s ≠ "" ∧
         x = <["relevance_score" := VFloat (score_of x)]> a.
Proof.
  rewrite filter_articles_eq. intros [= <-] Hx.
  apply elem_of_take in Hx as (i & Hx & _).
  apply list_elem_of_lookup_2 in Hx. rewrite ranked_perm in Hx.
  apply accepted_origin in Hx as (a & Ha & Hf).
  apply filter_article_appended in Hf as (s & q & Ht & Hs & _ & _ & _ & _ & ->).
  exists a, s. repeat split; try done.
  unfold score_of. by rewrite lookup_insert_eq.
Qed.

Lemma filter_articles_requires_title_witness :
  ∃ a s, a ∈ [mk_article "" "gold price" "gold" "Kitco";
               mk_article "Gold rallies" "" "gold" "Kitco"] ∧
         a !! "title" = Some (VStr s) ∧ s ≠ "" ∧
         annotate config (mk_article "Gold rallies" "" "gold" "Kitco")
         = <["relevance_score" :=
               VFloat (score_of
                 (annotate config (mk_article "Gold rallies" "" "gold" "Kitco")))]> a.
Proof.
  apply (filter_articles_requires_title config empty_filter
           [mk_article "" "gold price" "gold" "Kitco";
            mk_article "Gold rallies" "" "gold" "Kitco"]
           [annotate config (mk_article "Gold rallies" "" "gold" "Kitco")]).
  - vm_compute. reflexivity.
  - apply list_elem_of_here.
Defined.

(** C2, as stated, fails: an article whose title is one space is returned. *)
Lemma whitespace_title_accepted :
  PyStr.strip " " = "" ∧
  titles <$> returned (filter_articles config empty_filter
                         [mk_article " " "gold" "gold" "Reuters"])
  = Some [Some (VStr " ")].
Proof. split; vm_compute; reflexivity. Qed.

Lemma filter_articles_never_raises_witness :
  returned (filter_articles config empty_filter
              [<["title" := VStr "Gold rallies"]> ∅;
               mk_article "Gold rallies" "" "gold" "Kitco"])
  = returned (filter_articles config empty_filter
              [mk_article "Gold rallies" "" "gold" "Kitco"]).
Proof.
  apply (proj2 (filter_articles_never_raises config empty_filter
                  [<["title" := VStr "Gold rallies"]> ∅;
                   mk_article "Gold rallies" "" "gold" "Kitco"])
           [] (<["title" := VStr "Gold rallies"]> ∅)
           [mk_article "Gold rallies" "" "gold" "Kitco"]).
  - reflexivity.
  - vm_compute. reflexivity.
Defined.

(** C10.  Each article is judged against the history alone, never against
    the rest of the batch; two articles with the same title, absent from
    the history, are both returned. *)
Theorem filter_articles_keeps_batch_duplicates :
  (∀ cfg self l1 l2,
     accepted cfg self (l1 ++ l2) = accepted cfg self l1 ++ accepted cfg self l2)%list ∧
  is_duplicate empty_filter "Gold rallies" = false ∧
  titles <$> returned (filter_articles config empty_filter
                         [mk_article "Gold rallies" "" "gold" "Kitco";
                          mk_article "Gold rallies" "" "gold" "Kitco"])
  = Some [Some (VStr "Gold rallies"); Some (VStr "Gold rallies")].
Proof.
  split; [apply accepted_app|]. split; vm_compute; reflexivity.
Qed.

(** ** The sent-title history *)

Lemma slice_last_length {A : Type} (n : Z) (l : list A) :
  (0 < n)%Z → (Z.of_nat (length (Py.slice_last n l)) ≤ n)%Z.
Proof.
  intros Hn. unfold Py.slice_last.
  destruct (n =? 0)%Z eqn:E0; [lia|].
  destruct (0 <? n)%Z eqn:E1; [|lia].
  rewrite length_drop. lia.
Qed.

Lemma slice_last_drop {A : Type} (n : Z) (l : list A) :
  (0 < n)%Z → Py.slice_last n l = drop (length l - Z.to_nat n) l.
Proof.
  intros Hn. unfold Py.slice_last.
  destruct (n =? 0)%Z eqn:E0; [lia|].
  destruct (0 <? n)%Z eqn:E1; [done|lia].
Qed.

(** C1, as amended.  [mark_as_sent] appends the raw title to the history
    the filter holds in memory and does not truncate that list, which grows
    by one entry; the list it writes to the file is the most recent
    [MAX_STORED_HEADLINES] entries of it, the front dropped, so the
    persisted history never exceeds [MAX_STORED_HEADLINES] entries. *)
Theorem mark_as_sent_history (cfg : Config) (io : write_outcome)
    (self : NewsFilter) (title : string) :
  (0 < MAX_STORED_HEADLINES cfg)%Z →
  let self' := mark_as_sent cfg io self title in
  let cap := Z.to_nat (MAX_STORED_HEADLINES cfg) in
  sent_headlines self' = (sent_headlines self ++ [title])%list ∧
  length (sent_headlines self') = S (length (sent_headlines self)) ∧
  (io = Written →
   persisted self' = drop (length (sent_headlines self') - cap) (sent_headlines self') ∧
   (length (persisted self') ≤ cap)%nat) ∧
  ((length (persisted self) ≤ cap)%nat → (length (persisted self') ≤ cap)%nat).
Proof.
  intros Hmax self' cap.
  assert (sent_headlines self' = (sent_headlines self ++ [title])%list) as Hs
    by (unfold self', mark_as_sent, save_sent_headlines; by destruct io).
  split; [done|]. split; [rewrite Hs, length_app; simpl; lia|].
  assert (io = Written →
          persisted self' = Py.slice_last (MAX_STORED_HEADLINES cfg) (sent_headlines self'))
    as Hw.
  { intros ->. by rewrite Hs. }
  split.
  - intros Hio. rewrite (Hw Hio). split; [by apply slice_last_drop|].
    pose proof (slice_last_length (MAX_STORED_HEADLINES cfg) (sent_headlines self') Hmax).
    lia.
  - intros Hold. destruct io.
    + rewrite (Hw eq_refl).
      pose proof (slice_last_length (MAX_STORED_HEADLINES cfg)
                    (sent_headlines self') Hmax).
      lia.
    + done.
    + unfold self', mark_as_sent, save_sent_headlines, persisted. simpl. lia.
Qed.

Lemma mark_as_sent_history_witness :
  sent_headlines (mark_as_sent config Written empty_filter "Gold rallies")
  = ["Gold rallies"] ∧
  persisted (mark_as_sent config Written empty_filter "Gold rallies")
  = ["Gold rallies"].
Proof.
  destruct (mark_as_sent_history config Written empty_filter "Gold rallies")
    as (H1 & _ & H2 & _); [reflexivity|].
  split; [exact H1|]. destruct (H2 eq_refl) as [H3 _]. exact H3.
Defined.

(** C1, as stated, fails: from an empty history, 51 titles marked as sent
    leave 51 entries in the history under a cap of 50 (and 50 in the file). *)
Lemma history_exceeds_cap :
  MAX_STORED_HEADLINES config = 50%Z ∧
  length (sent_headlines
            (mark_all_as_sent config empty_filter (pretty <$> seq 0 51))) = 51 ∧
  length (persisted
            (mark_all_as_sent config empty_filter (pretty <$> seq 0 51))) = 50.
Proof. repeat split; vm_compute; reflexivity. Qed.

(** ** The scorer *)

Lemma Qcount_nonneg (sub s : string) : (0 <= Qcount sub s)%Q.
Proof. unfold Qcount, Qle. simpl. lia. Qed.

Lemma keyword_score_ge (title summary : string) (keywords : list string) (score : Q) :
  (score <= keyword_score title summary keywords score)%Q.
Proof.
  revert score. induction keywords as [|k ks IH]; intros score; simpl.
  - apply Qle_refl.
  - eapply Qle_trans; [|apply IH].
    pose proof (Qcount_nonneg (PyStr.lower k) title) as H1.
    pose proof (Qcount_nonneg (PyStr.lower k) summary) as H2.
    assert (0 <= Qcount (PyStr.lower k) title * 2.0)%Q
      by (apply Qmult_le_0_compat; [done|discriminate]).
    assert (0 <= Qcount (PyStr.lower k) summary * 1.0)%Q
      by (apply Qmult_le_0_compat; [done|discriminate]).
    rewrite <- (Qplus_0_r score) at 1. rewrite <- Qplus_assoc.
    apply Qplus_le_compat; [apply Qle_refl|].
    rewrite <- (Qplus_0_r 0). by apply Qplus_le_compat.
Qed.

Lemma bonus_score_ge (text : string) (terms : list (string * Q)) (score : Q) :
  Forall (fun p => (0 <= snd p)%Q) terms →
  (score <= bonus_score text terms score)%Q.
Proof.
  intros H. revert score. induction H as [|[t w] terms Hw _ IH]; intros score; simpl.
  - apply Qle_refl.
  - eapply Qle_trans; [|apply IH].
    destruct (PyStr.contains t text); [|apply Qle_refl].
    rewrite <- (Qplus_0_r score) at 1.
    apply Qplus_le_compat; [apply Qle_refl|exact Hw].
Qed.

Lemma important_terms_nonneg : Forall (fun p => (0 <= snd p)%Q) important_terms.
Proof. repeat constructor; discriminate. Qed.

(** The score of an article whose title and summary read as strings. *)
Lemma calculate_relevance_score_strs (cfg : Config) (a : Article)
    (t s : string) (c : value) :
  Py.get a "title" (VStr "") = VStr t →
  Py.get a "summary" (VStr "") = VStr s →
  a !! "category" = Some c →
  calculate_relevance_score cfg a
  = Ok (bonus_score (PyStr.lower t ++ " " ++ PyStr.lower s) important_terms
          (keyword_score (PyStr.lower t) (PyStr.lower s)
             (if Py.eq_str c "crypto" then CRYPTO_KEYWORDS cfg
              else GOLD_KEYWORDS cfg) 0.0%Q)).
Proof.
  intros Et Es Hc. unfold calculate_relevance_score, Py.getitem.
  rewrite Et, Es, Hc. reflexivity.
Qed.

(** C6, as amended.  For an article that has a [category] and whose
    [title] and [summary], where present, are strings,
    [calculate_relevance_score] returns a float that is not negative, and
    the same one as with an absent [title] or [summary] put as the empty
    string.  (An absent [category] is not read as an empty string.) *)
Theorem calculate_relevance_score_total (cfg : Config) (a : Article) (c : value) :
  a !! "category" = Some c →
  str_or_missing (a !! "title") →
  str_or_missing (a !! "summary") →
  ∃ q, calculate_relevance_score cfg a = Ok q ∧ (0 <= q)%Q ∧
       calculate_relevance_score cfg
         (<["title" := Py.get a "title" (VStr "")]>
            (<["summary" := Py.get a "summary" (VStr "")]> a)) = Ok q.
Proof.
  intros Hc Ht Hs.
  assert (∃ t, Py.get a "title" (VStr "") = VStr t) as [t Et].
  { unfold Py.get. destruct (a !! "title") as [[]|]; try done; by eexists. }
  assert (∃ s, Py.get a "summary" (VStr "") = VStr s) as [s Es].
  { unfold Py.get. destruct (a !! "summary") as [[]|]; try done; by eexists. }
  eexists. split; [|split].
  - by apply (calculate_relevance_score_strs cfg a t s c).
  - eapply Qle_trans; [|apply bonus_score_ge, important_terms_nonneg].
    eapply Qle_trans; [|apply keyword_score_ge].
    unfold Qle. simpl. lia.
  - rewrite Et, Es. apply calculate_relevance_score_strs.
    + unfold Py.get. by rewrite lookup_insert_eq.
    + unfold Py.get. by rewrite lookup_insert_ne, lookup_insert_eq.
    + by rewrite !lookup_insert_ne.
Qed.

Lemma calculate_relevance_score_total_witness :
  ∃ q, calculate_relevance_score config (<["category" := VStr "gold"]> ∅) = Ok q ∧
       (0 <= q)%Q ∧
       calculate_relevance_score config
         (<["title" := Py.get (<["category" := VStr "gold"]> ∅) "title" (VStr "")]>
            (<["summary" := Py.get (<["category" := VStr "gold"]> ∅) "summary" (VStr "")]>
               (<["category" := VStr "gold"]> ∅))) = Ok q.
Proof.
  apply (calculate_relevance_score_total config (<["category" := VStr "gold"]> ∅)
           (VStr "gold")).
  - reflexivity.
  - vm_compute. exact I.
  - vm_compute. exact I.
Defined.

(** C6, as stated, fails: an article without a [category] makes
    [calculate_relevance_score] raise [KeyError]. *)
Lemma missing_category_raises :
  calculate_relevance_score config (<["title" := VStr "gold"]> ∅) = Raise KeyError.
Proof. vm_compute. reflexivity. Qed.

(** C9.  An article whose [category] is anything but the string "crypto"
    is scored against [GOLD_KEYWORDS] and passes the keyword gate on a
    [GOLD_KEYWORDS] match or a source containing "mining": both functions
    treat it exactly as they treat the same article with category "gold",
    and neither rejects a category outside crypto and gold. *)
Theorem other_category_is_gold (cfg : Config) (a : Article) (c : value) :
  a !! "category" = Some c →
  c ≠ VStr "crypto" →
  calculate_relevance_score cfg a
  = (title ← Py.lower (Py.get a "title" (VStr ""));
     summary ← Py.lower (Py.get a "summary" (VStr ""));
     mret (bonus_score (title ++ " " ++ summary) important_terms
             (keyword_score title summary (GOLD_KEYWORDS cfg) 0.0%Q))) ∧
  has_keywords cfg a
  = (let text := Py.format (Py.get a "title" (VStr "")) ++ " "
                 ++ Py.format (Py.get a "summary" (VStr "")) in
     if contains_keywords text (GOLD_KEYWORDS cfg) then mret true
     else source ← Py.lower (Py.get a "source" (VStr ""));
          mret (PyStr.contains "mining" source)) ∧
  calculate_relevance_score cfg a
  = calculate_relevance_score cfg (<["category" := VStr "gold"]> a) ∧
  has_keywords cfg a = has_keywords cfg (<["category" := VStr "gold"]> a).
Proof.
  intros Hc Hne.
  assert (Py.eq_str c "crypto" = false) as Hf.
  { destruct c as [|s| |]; try done. simpl.
    apply String.eqb_neq. congruence. }
  assert (∀ k dflt, k ≠ "category" →
            Py.get (<["category" := VStr "gold"]> a) k dflt = Py.get a k dflt) as Hget.
  { intros k d Hk. unfold Py.get. by rewrite lookup_insert_ne. }
  unfold calculate_relevance_score, has_keywords, Py.getitem.
  rewrite lookup_insert_eq, Hc, !Hget by done.
  unfold_result. cbv zeta. rewrite Hf.
  change (Py.eq_str (VStr "gold") "crypto") with false. cbv iota.
  repeat split; by destruct (contains_keywords _ _).
Qed.

Lemma other_category_is_gold_witness :
  calculate_relevance_score config (mk_article "Silver price" "" "metals" "Mining Weekly")
  = calculate_relevance_score config
      (<["category" := VStr "gold"]> (mk_article "Silver price" "" "metals" "Mining Weekly")).
Proof.
  destruct (other_category_is_gold config
              (mk_article "Silver price" "" "metals" "Mining Weekly") (VStr "metals"))
    as (_ & _ & H & _).
  - reflexivity.
  - discriminate.
  - exact H.
Defined.

(** ** Duplicate detection against its description *)

Section Duplicates.

Implicit Types (s w : string) (h : list string).

Lemma split_lstrip s : PyStr.split (PyStr.lstrip s) = PyStr.split s.
Proof.
  induction s as [|c s IH]; [done|].
  unfold PyStr.split in *. cbn [PyStr.lstrip].
  destruct (PyStr.is_space c) eqn:Hc; [|done].
  rewrite IH. cbn [PyStr.split_from]. by rewrite Hc.
Qed.

Lemma split_from_cons w c s :
  PyStr.split_from w (String c s)
  = if PyStr.is_space c
    then match w with
         | EmptyString => PyStr.split_from EmptyString s
         | _ => w :: PyStr.split_from EmptyString s
         end
    else PyStr.split_from (w ++ String c EmptyString) s.
Proof. done. Qed.

Lemma split_from_rstrip s :
  ∀ w, PyStr.split_from w (PyStr.rstrip s) = PyStr.split_from w s.
Proof.
  induction s as [|c s IH]; [done|]. intros w. cbn [PyStr.rstrip].
  destruct (PyStr.rstrip s) as [|c' r] eqn:Hr.
  - destruct (PyStr.is_space c) eqn:Hc; cbn [PyStr.split_from]; rewrite Hc.
    + rewrite <- (IH EmptyString). by destruct w.
    + by rewrite <- IH.
  - rewrite !(split_from_cons _ c). by rewrite !IH.
Qed.

Lemma split_strip s : PyStr.split (PyStr.strip s) = PyStr.split s.
Proof.
  rewrite <- (split_lstrip s). unfold PyStr.strip, PyStr.split.
  apply split_from_rstrip.
Qed.

Lemma word_set_strip s :
  list_to_set (PyStr.split (PyStr.strip s)) = Spec.word_set s.
Proof. unfold Spec.word_set. by rewrite split_strip. Qed.

Lemma strip_empty_word_set s : PyStr.strip s = "" → Spec.word_set s = ∅.
Proof.
  intros H. unfold Spec.word_set. by rewrite <- split_strip, H.
Qed.

(** The source's ratio on the stripped strings is the Jaccard similarity
    of the word sets. *)
Lemma similarity_ratio_jaccard s1 s2 :
  similarity_ratio (PyStr.strip s1) (PyStr.strip s2)
  = Spec.jaccard (Spec.word_set s1) (Spec.word_set s2).
Proof.
  unfold similarity_ratio, Spec.jaccard. rewrite !word_set_strip.
  destruct (String.eqb_spec (PyStr.strip s1) "") as [E1|_].
  { apply strip_empty_word_set in E1. rewrite decide_True; [done|by left]. }
  destruct (String.eqb_spec (PyStr.strip s2) "") as [E2|_].
  { apply strip_empty_word_set in E2. rewrite decide_True; [done|by right]. }
  cbn [orb].
  destruct (decide (Spec.word_set s1 = ∅)) as [E1|N1].
  { rewrite bool_decide_eq_true_2 by done.
    rewrite decide_True by (by left). reflexivity. }
  destruct (decide (Spec.word_set s2 = ∅)) as [E2|N2].
  { rewrite (bool_decide_eq_true_2 (Spec.word_set s2 = ∅)) by done.
    rewrite orb_true_r. rewrite decide_True by (by right). reflexivity. }
  rewrite !bool_decide_eq_false_2 by done. cbn [orb].
  rewrite decide_False by tauto.
  assert (size (Spec.word_set s1 ∪ Spec.word_set s2) ≠ 0) as Hu.
  { intros H0%size_empty_inv. apply N1.
    apply leibniz_equiv. set_solver. }
  destruct (Nat.ltb_spec 0 (size (Spec.word_set s1 ∪ Spec.word_set s2)));
    [done|lia].
Qed.

Lemma Qgtb_lt (a b : Q) : Qgtb a b = true ↔ (b < a)%Q.
Proof.
  unfold Qgtb. rewrite negb_true_iff. split.
  - intros H. apply Qnot_le_lt. intros Hle%Qle_bool_iff. congruence.
  - intros H. destruct (Qle_bool a b) eqn:E; [|done].
    apply Qle_bool_iff in E. by apply Qle_not_lt in E.
Qed.

Lemma similar_to_any_iff s h :
  similar_to_any s h = true ↔
  ∃ stored, stored ∈ h ∧
    (0.85 < similarity_ratio s (normalize_title stored))%Q.
Proof.
  induction h as [|t h IH]; simpl.
  - split; [done|]. by intros (? & ?%elem_of_nil & _).
  - destruct (Qgtb _ _) eqn:E.
    + split; [|done]. intros _. exists t. split; [left|by apply Qgtb_lt].
    + rewrite IH. split.
      * intros (x & Hx & Hr). exists x. split; [by right|done].
      * intros (x & [->|Hx]%elem_of_cons & Hr).
        -- apply Qgtb_lt in Hr. congruence.
        -- by exists x.
Qed.

End Duplicates.

(** C3.  [is_duplicate] answers true exactly when the raw title is one of
    the stored titles, or when, both titles lowercased and stripped of
    every character that is neither a word character nor whitespace, the
    Jaccard similarity of their sets of whitespace-separated words (0.0
    when either set is empty) is above 0.85 for some stored title. *)
Theorem is_duplicate_spec (self : NewsFilter) (title : string) :
  is_duplicate self title = true ↔ Spec.duplicate (sent_headlines self) title.
Proof.
  unfold is_duplicate, Spec.duplicate.
  destruct (decide (title ∈ sent_headlines self)) as [Hin|Hout].
  - rewrite bool_decide_eq_true_2 by done. split; [by left|done].
  - rewrite bool_decide_eq_false_2 by done. rewrite similar_to_any_iff.
    unfold normalize_title. setoid_rewrite similarity_ratio_jaccard.
    split; [by right|]. by intros [?|?].
Qed.

(** ** Substrings and counts across a separating space *)

Section Occurrences.

Implicit Types (t s x y : string) (c : ascii).

Lemma string_app_cons c x y : String c x ++ y = String c (x ++ y).
Proof. reflexivity. Qed.

Lemma string_app_nil_l x : "" ++ x = x.
Proof. reflexivity. Qed.

Lemma string_app_assoc x y s : (x ++ y) ++ s = x ++ (y ++ s).
Proof.
  induction x as [|c x IH]; [done|].
  rewrite !string_app_cons. by f_equal.
Qed.

Lemma string_app_nil_r x : x ++ "" = x.
Proof.
  induction x as [|c x IH]; [done|].
  rewrite string_app_cons. by f_equal.
Qed.

Lemma lower_app x y : PyStr.lower (x ++ y) = PyStr.lower x ++ PyStr.lower y.
Proof.
  induction x as [|c x IH]; [done|].
  rewrite string_app_cons. cbn [PyStr.lower].
  rewrite string_app_cons. by f_equal.
Qed.

Lemma startswith_iff t s :
  PyStr.startswith t s = true ↔ ∃ post, s = t ++ post.
Proof.
  revert s. induction t as [|a t IH]; intros s; simpl.
  - split; [by exists s|done].
  - destruct s as [|b s]; [split; [done|by intros [? ?]]|].
    rewrite andb_true_iff, IH. split.
    + intros [Hab [post ->]]. apply Ascii.eqb_eq in Hab as ->. by exists post.
    + intros [post [= -> ->]]. split; [apply Ascii.eqb_refl|by exists post].
Qed.

Lemma contains_iff t s :
  PyStr.contains t s = true ↔ ∃ pre post, s = pre ++ t ++ post.
Proof.
  induction s as [|b s IH]; cbn [PyStr.contains]; rewrite orb_true_iff.
  - rewrite startswith_iff. split.
    + intros [[post H]|?]; [|done]. by exists "", post.
    + intros (pre & post & H). left. destruct pre; [by exists post|done].
  - rewrite startswith_iff, IH. split.
    + intros [[post H]|(pre & post & ->)]; [by exists "", post|].
      by exists (String b pre), post.
    + intros ([|b' pre] & post & H); [left; by exists post|].
      right. injection H as -> ->. by exists pre, post.
Qed.

Lemma contains_trans t x s :
  PyStr.contains t x = true → PyStr.contains x s = true →
  PyStr.contains t s = true.
Proof.
  rewrite !contains_iff. intros (p1 & q1 & ->) (p2 & q2 & ->).
  exists (p2 ++ p1), (q1 ++ q2). by rewrite !string_app_assoc.
Qed.

Lemma startswith_length t s :
  PyStr.startswith t s = true → (String.length t ≤ String.length s)%nat.
Proof.
  revert s. induction t as [|a t IH]; intros [|b s]; simpl; try done; try lia.
  intros [_ H]%andb_true_iff. apply IH in H. lia.
Qed.

Lemma startswith_refl t : PyStr.startswith t t = true.
Proof. induction t as [|a t IH]; simpl; [done|]. by rewrite Ascii.eqb_refl. Qed.

(** An occurrence of a spaceless [t] never runs across a space. *)
Lemma startswith_sep t x y :
  has_space t = false →
  PyStr.startswith t (x ++ String " " y) = PyStr.startswith t x.
Proof.
  revert x. induction t as [|a t IH]; intros x Ht; [by destruct x|].
  simpl in Ht. apply orb_false_iff in Ht as [Ha Ht].
  destruct x as [|b x]; simpl.
  - by rewrite Ha.
  - by rewrite IH.
Qed.

Lemma contains_sep t x y :
  has_space t = false →
  PyStr.contains t (x ++ String " " y)
  = PyStr.contains t x || PyStr.contains t y.
Proof.
  intros Ht. induction x as [|b x IH].
  - rewrite string_app_nil_l. cbn [PyStr.contains].
    rewrite <- (startswith_sep t "" y Ht), string_app_nil_l.
    by rewrite orb_false_r.
  - change (String b x ++ String " " y) with (String b (x ++ String " " y)).
    cbn [PyStr.contains]. rewrite IH.
    change (String b (x ++ String " " y)) with (String b x ++ String " " y).
    rewrite startswith_sep by done. by rewrite orb_assoc.
Qed.

Lemma count_from_short t k s :
  (String.length s ≤ k)%nat → PyStr.count_from t k s = 0.
Proof.
  revert k. induction s as [|b s IH]; intros k Hk; [done|].
  simpl in *. destruct k as [|k]; [lia|]. apply IH. lia.
Qed.

Lemma count_from_sep t k x y :
  t ≠ "" → has_space t = false → (k ≤ String.length x)%nat →
  PyStr.count_from t k (x ++ String " " y)
  = PyStr.count_from t k x + PyStr.count_from t 0 y.
Proof.
  intros Hne Ht. revert k. induction x as [|b x IH]; intros k Hk.
  - simpl in Hk. assert (k = 0) as -> by lia.
    rewrite string_app_nil_l. cbn [PyStr.count_from].
    rewrite <- (string_app_nil_l (String " " y)) at 1.
    rewrite startswith_sep by done. by destruct t.
  - change (String b x ++ String " " y) with (String b (x ++ String " " y)).
    cbn [PyStr.count_from]. destruct k as [|k].
    + change (String b (x ++ String " " y)) with (String b x ++ String " " y).
      rewrite startswith_sep by done.
      destruct (PyStr.startswith t (String b x)) eqn:Hst.
      * apply startswith_length in Hst. simpl in Hst.
        rewrite IH by lia. done.
      * by apply IH; lia.
    + apply IH. simpl in Hk. lia.
Qed.

(** [count] adds up over two texts joined by a space. *)
Lemma count_sep t x y :
  t ≠ "" → has_space t = false →
  PyStr.count t (x ++ " " ++ y) = PyStr.count t x + PyStr.count t y.
Proof.
  intros Hne Ht. unfold PyStr.count. destruct t as [|a t]; [done|].
  apply count_from_sep; [done|done|lia].
Qed.

Lemma count_self t : t ≠ "" → PyStr.count t t = 1.
Proof.
  intros Hne. destruct t as [|a t]; [done|].
  unfold PyStr.count. cbn [PyStr.count_from].
  rewrite startswith_refl. f_equal. apply count_from_short. simpl. lia.
Qed.

End Occurrences.

(** ** One more occurrence of a keyword *)

Section Monotonicity.

Implicit Types (t s k : string) (q : Q).

Lemma keyword_score_acc t s keywords q :
  (keyword_score t s keywords q == q + keyword_score t s keywords 0)%Q.
Proof.
  revert q. induction keywords as [|k ks IH]; intros q; cbn [keyword_score].
  - ring.
  - rewrite IH. rewrite (IH (0 + _ + _)%Q). ring.
Qed.

Lemma bonus_score_acc text terms q :
  (bonus_score text terms q == q + bonus_score text terms 0)%Q.
Proof.
  revert q. induction terms as [|[term w] terms IH]; intros q; cbn [bonus_score].
  - ring.
  - rewrite IH. destruct (PyStr.contains term text).
    + rewrite (IH (0 + w)%Q). ring.
    + reflexivity.
Qed.

(** The bonus depends on the text only through which terms it holds. *)
Lemma bonus_score_ext text text' terms q :
  Forall (fun p => PyStr.contains (fst p) text' = PyStr.contains (fst p) text) terms →
  bonus_score text' terms q = bonus_score text terms q.
Proof.
  intros H. revert q. induction H as [|[term w] terms Hc _ IH]; intros q; [done|].
  cbn [bonus_score]. simpl in Hc. by rewrite Hc, IH.
Qed.

Lemma important_terms_spaceless :
  Forall (fun p : string * Q => has_space (fst p) = false) important_terms.
Proof. repeat constructor. Qed.

Lemma Qcount_sep k x y :
  k ≠ "" → has_space k = false →
  (Qcount k (x ++ " " ++ y) == Qcount k x + Qcount k y)%Q.
Proof.
  intros Hne Hk. unfold Qcount. rewrite count_sep by done.
  by rewrite Nat2Z.inj_add, inject_Z_plus.
Qed.

Lemma nested_occurrences_cons k keywords word :
  nested_occurrences (k :: keywords) word
  = PyStr.count (PyStr.lower k) word + nested_occurrences keywords word.
Proof. done. Qed.

(** The keyword score after [word] is appended to the title, and after it
    is appended to the summary. *)
Lemma keyword_score_one_more t s word keywords :
  Forall plain_keyword keywords →
  (keyword_score (t ++ " " ++ word) s keywords 0
   == keyword_score t s keywords 0
      + 2.0 * inject_Z (Z.of_nat (nested_occurrences keywords word)))%Q ∧
  (keyword_score t (s ++ " " ++ word) keywords 0
   == keyword_score t s keywords 0
      + 1.0 * inject_Z (Z.of_nat (nested_occurrences keywords word)))%Q.
Proof.
  induction 1 as [|k ks [Hne Hk] _ [IHt IHs]].
  - split; cbn [keyword_score]; unfold nested_occurrences; simpl; ring.
  - rewrite nested_occurrences_cons, Nat2Z.inj_add, inject_Z_plus.
    cbn [keyword_score].
    split.
    + rewrite keyword_score_acc, IHt.
      rewrite (keyword_score_acc t s ks (0 + _ + _)%Q).
      rewrite Qcount_sep by done. unfold Qcount. ring.
    + rewrite keyword_score_acc, IHs.
      rewrite (keyword_score_acc t s ks (0 + _ + _)%Q).
      rewrite Qcount_sep by done. unfold Qcount. ring.
Qed.

(** A keyword of the list occurs in its own lowercase form. *)
Lemma nested_occurrences_member k keywords :
  Forall plain_keyword keywords → k ∈ keywords →
  (1 ≤ nested_occurrences keywords (PyStr.lower k))%nat.
Proof.
  induction 1 as [|k' ks [Hne Hk] _ IH]; [by intros ?%elem_of_nil|].
  rewrite nested_occurrences_cons. intros [->|Hin]%elem_of_cons.
  - rewrite count_self by done. lia.
  - specialize (IH Hin). lia.
Qed.

(** What [calculate_relevance_score] read when it returned. *)
Lemma calculate_relevance_score_inv cfg (a : Article) q :
  calculate_relevance_score cfg a = Ok q →
  ∃ t s c,
    Py.get a "title" (VStr "") = VStr t ∧
    Py.get a "summary" (VStr "") = VStr s ∧
    a !! "category" = Some c.
Proof.
  unfold calculate_relevance_score, Py.getitem. unfold_result.
  destruct (Py.get a "title" (VStr "")) as [|t| |]; try done.
  destruct (Py.get a "summary" (VStr "")) as [|s| |]; try done.
  destruct (a !! "category") as [c|]; [|done].
  intros _. by exists t, s, c.
Qed.

End Monotonicity.

Lemma Ok_inj {A : Type} (x y : A) : Ok x = Ok y → x = y.
Proof. congruence. Qed.

Section OneMore.

Implicit Types (t s k w : string) (q : Q).

Lemma lower_sep x y :
  PyStr.lower (x ++ " " ++ y) = PyStr.lower x ++ " " ++ PyStr.lower y.
Proof. by rewrite !lower_app. Qed.

Lemma sep_cons x y : x ++ " " ++ y = x ++ String " " y.
Proof. reflexivity. Qed.

Lemma bonus_unchanged_title t w s q :
  PyStr.contains w t = true →
  bonus_score ((t ++ " " ++ w) ++ " " ++ s) important_terms q
  = bonus_score (t ++ " " ++ s) important_terms q.
Proof.
  intros Hw. apply bonus_score_ext.
  eapply Forall_impl; [apply important_terms_spaceless|].
  intros [term weight] Hsp. simpl in *.
  rewrite !sep_cons.
  rewrite (contains_sep term (t ++ String " " w) s Hsp).
  rewrite (contains_sep term t w Hsp), (contains_sep term t s Hsp).
  destruct (PyStr.contains term w) eqn:Hc; [|by rewrite orb_false_r].
  by rewrite (contains_trans term w t Hc Hw).
Qed.

Lemma bonus_unchanged_summary t w s q :
  PyStr.contains w s = true →
  bonus_score (t ++ " " ++ (s ++ " " ++ w)) important_terms q
  = bonus_score (t ++ " " ++ s) important_terms q.
Proof.
  intros Hw. apply bonus_score_ext.
  eapply Forall_impl; [apply important_terms_spaceless|].
  intros [term weight] Hsp. simpl in *.
  rewrite !sep_cons.
  rewrite (contains_sep term t (s ++ String " " w) Hsp).
  rewrite (contains_sep term s w Hsp), (contains_sep term t s Hsp).
  destruct (PyStr.contains term w) eqn:Hc; [|by rewrite orb_false_r].
  by rewrite (contains_trans term w s Hc Hw).
Qed.

End OneMore.

(** C5, as amended.  Appending, after a space, one more occurrence of a
    word already present in the title raises the score by exactly 2.0 for
    each occurrence of a keyword of the category inside that word, and by
    1.0 for each when the word is appended to a summary that already holds
    it.  When the word is itself one of the keywords the rise is at least
    2.0 (at least 1.0 in the summary), hence strict; it is exactly 2.0
    (1.0) when no other keyword occurs inside the word. *)
Theorem one_more_occurrence (cfg : Config) (a : Article) (kw : string) (q : Q) :
  Forall plain_keyword (category_keywords cfg a) →
  has_space (PyStr.lower kw) = false →
  calculate_relevance_score cfg a = Ok q →
  let n := inject_Z (Z.of_nat
             (nested_occurrences (category_keywords cfg a) (PyStr.lower kw))) in
  (∀ t, a !! "title" = Some (VStr t) →
        PyStr.contains (PyStr.lower kw) (PyStr.lower t) = true →
        ∃ q', calculate_relevance_score cfg
                (<["title" := VStr (t ++ " " ++ kw)]> a) = Ok q' ∧
              (q' == q + 2.0 * n)%Q) ∧
  (∀ s, a !! "summary" = Some (VStr s) →
        PyStr.contains (PyStr.lower kw) (PyStr.lower s) = true →
        ∃ q', calculate_relevance_score cfg
                (<["summary" := VStr (s ++ " " ++ kw)]> a) = Ok q' ∧
              (q' == q + 1.0 * n)%Q) ∧
  (kw ∈ category_keywords cfg a → (1 <= n)%Q).
Proof.
  intros Hplain Hsp Hq n.
  destruct (calculate_relevance_score_inv _ _ _ Hq) as (t0 & s0 & c & Ht0 & Hs0 & Hc).
  rewrite (calculate_relevance_score_strs cfg a t0 s0 c Ht0 Hs0 Hc) in Hq.
  apply Ok_inj in Hq. subst q.
  assert (category_keywords cfg a
          = if Py.eq_str c "crypto" then CRYPTO_KEYWORDS cfg else GOLD_KEYWORDS cfg)
    as Hkw by (unfold category_keywords, Py.get; by rewrite Hc).
  rewrite Hkw in Hplain. subst n. rewrite Hkw.
  destruct (keyword_score_one_more (PyStr.lower t0) (PyStr.lower s0)
              (PyStr.lower kw) _ Hplain) as [Kt Ks].
  split; [|split].
  - intros t Ht Hin.
    assert (t0 = t) as -> by (unfold Py.get in Ht0; rewrite Ht in Ht0; congruence).
    eexists. split.
    + apply (calculate_relevance_score_strs cfg _ (t ++ " " ++ kw) s0 c).
      * unfold Py.get. by rewrite lookup_insert_eq.
      * unfold Py.get in *. by rewrite lookup_insert_ne.
      * by rewrite lookup_insert_ne.
    + rewrite lower_sep, bonus_unchanged_title by done.
      rewrite bonus_score_acc, keyword_score_acc, Kt.
      rewrite (bonus_score_acc _ _ (keyword_score _ _ _ _)).
      rewrite (keyword_score_acc _ _ _ 0.0%Q). ring.
  - intros s Hs Hin.
    assert (s0 = s) as -> by (unfold Py.get in Hs0; rewrite Hs in Hs0; congruence).
    eexists. split.
    + apply (calculate_relevance_score_strs cfg _ t0 (s ++ " " ++ kw) c).
      * unfold Py.get in *. by rewrite lookup_insert_ne.
      * unfold Py.get. by rewrite lookup_insert_eq.
      * by rewrite lookup_insert_ne.
    + rewrite lower_sep, bonus_unchanged_summary by done.
      rewrite bonus_score_acc, keyword_score_acc, Ks.
      rewrite (bonus_score_acc _ _ (keyword_score _ _ _ _)).
      rewrite (keyword_score_acc _ _ _ 0.0%Q). ring.
  - intros Hin.
    pose proof (nested_occurrences_member kw _ Hplain Hin) as H1.
    unfold Qle. simpl. lia.
Qed.

Lemma config_keywords_plain :
  Forall plain_keyword (CRYPTO_KEYWORDS config) ∧
  Forall plain_keyword (GOLD_KEYWORDS config).
Proof. split; repeat constructor; done. Qed.

Lemma one_more_occurrence_witness :
  ∃ q', calculate_relevance_score config
          (<["title" := VStr ("Gold price" ++ " " ++ "gold")]>
             (mk_article "Gold price" "" "gold" "Kitco")) = Ok q' ∧
        (q' == score_or_zero
                 (calculate_relevance_score config
                    (mk_article "Gold price" "" "gold" "Kitco"))
               + 2.0 * inject_Z (Z.of_nat
                   (nested_occurrences
                      (category_keywords config
                         (mk_article "Gold price" "" "gold" "Kitco"))
                      (PyStr.lower "gold"))))%Q.
Proof.
  destruct (one_more_occurrence config
              (mk_article "Gold price" "" "gold" "Kitco") "gold"
              (score_or_zero
                 (calculate_relevance_score config
                    (mk_article "Gold price" "" "gold" "Kitco"))))
    as [H _].
  - exact (proj2 config_keywords_plain).
  - reflexivity.
  - vm_compute. reflexivity.
  - apply (H "Gold price"); vm_compute; reflexivity.
Defined.

(** C5, as stated, fails: "bitcoin" holds the keyword "coin" too, so one more
    "bitcoin" in the title raises the score from 4.0 to 8.0, not by 2.0. *)
Lemma nested_keyword_counts_twice :
  "bitcoin" ∈ CRYPTO_KEYWORDS config ∧
  PyStr.contains "bitcoin" (PyStr.lower "bitcoin") = true ∧
  score_is (calculate_relevance_score config
              (mk_article "bitcoin" "" "crypto" "")) 4.0 = true ∧
  score_is (calculate_relevance_score config
              (mk_article ("bitcoin" ++ " " ++ "bitcoin") "" "crypto" "")) 8.0 = true ∧
  score_is (calculate_relevance_score config
              (mk_article ("bitcoin" ++ " " ++ "bitcoin") "" "crypto" "")) (4.0 + 2.0)
  = false.
Proof.
  split; [apply list_elem_of_here|]. repeat split; vm_compute; reflexivity.
Qed.

(** ** The scenarios of the design note *)

Example lowercase_and_strip :
  normalize_title " Bitcoin ETF: Up 5%! " = "bitcoin etf up 5" ∧
  PyStr.split "  gold  price up " = ["gold"; "price"; "up"] ∧
  PyStr.count "aa" "aaaaa" = 2.
Proof. repeat split; vm_compute; reflexivity. Qed.

Example scenario_accepted :
  score_is (calculate_relevance_score config
              (mk_article "Bitcoin Surges to Record High" "BTC price jumps"
                 "crypto" "CoinDesk")) 13.5 = true ∧
  titles <$> returned
    (filter_articles config empty_filter
       [mk_article "Bitcoin Surges to Record High" "BTC price jumps"
          "crypto" "CoinDesk"])
  = Some [Some (VStr "Bitcoin Surges to Record High")].
Proof. split; vm_compute; reflexivity. Qed.

Example scenario_marked_then_duplicate :
  returned
    (filter_articles config
       (mark_as_sent config Written empty_filter "Bitcoin Surges to Record High")
       [mk_article "Bitcoin Surges to Record High" "BTC price jumps"
          "crypto" "CoinDesk";
        mk_article "bitcoin surges to record high!" "" "crypto" "CoinDesk"])
  = Some [].
Proof. vm_compute. reflexivity. Qed.

Example scenario_no_keyword :
  returned (filter_articles config empty_filter
              [mk_article "asdkj qweoiu" "" "gold" "Reuters"])
  = Some [].
Proof. vm_compute. reflexivity. Qed.

Example scenario_top_six :
  titles <$> returned
    (filter_articles config empty_filter
       ((fun n => mk_article (String.concat " " (replicate n "gold")) "" "gold" "Kitco")
          <$> seq 1 10))
  = Some ((fun n => Some (VStr (String.concat " " (replicate n "gold"))))
            <$> [10; 9; 8; 7; 6; 5]).
Proof. vm_compute. reflexivity. Qed.

Example scenario_absent_file : load_sent_headlines None = [].
Proof. reflexivity. Qed.

(** * Further properties of the code *)

(** ** The similarity of two titles *)

Lemma Qmake_of_nat_le_1 (i u : nat) :
  (i ≤ u)%nat → (0 < u)%nat → (Z.of_nat i # Pos.of_nat u <= 1)%Q.
Proof.
  intros Hiu Hu. unfold Qle. simpl.
  assert (Z.pos (Pos.of_nat u) = Z.of_nat u) as -> by lia.
  lia.
Qed.

(** X1.  [similarity_ratio] does not depend on the order of its arguments and
    lies between 0 and 1. *)
Theorem similarity_ratio_symmetric_bounded (str1 str2 : string) :
  similarity_ratio str1 str2 = similarity_ratio str2 str1 ∧
  (0 <= similarity_ratio str1 str2 <= 1)%Q.
Proof.
  split.
  - unfold similarity_ratio.
    rewrite (orb_comm (String.eqb str1 "")).
    rewrite (orb_comm (bool_decide (list_to_set (PyStr.split str1) = ∅))).
    assert (∀ A B : gset string, A ∩ B = B ∩ A) as Hi
      by (intros A B; apply leibniz_equiv, (comm _)).
    assert (∀ A B : gset string, A ∪ B = B ∪ A) as Hu
      by (intros A B; apply leibniz_equiv, (comm _)).
    by rewrite (Hi (list_to_set (PyStr.split str1))),
               (Hu (list_to_set (PyStr.split str1))).
  - unfold similarity_ratio.
    destruct (_ || _); [split; discriminate|].
    destruct (_ || _); [split; discriminate|].
    destruct (Nat.ltb_spec 0 (size (list_to_set (PyStr.split str1)
                                    ∪ list_to_set (PyStr.split str2) : gset string)))
      as [Hu|_]; [|split; discriminate].
    split.
    + unfold Qle. simpl. lia.
    + apply Qmake_of_nat_le_1; [|done].
      apply subseteq_size. etrans; [apply intersection_subseteq_l|].
      apply union_subseteq_l.
Qed.

(** ** Which titles count as duplicates *)

Lemma title_words_spec (title : string) :
  title_words title = Spec.word_set (Spec.normalized title).
Proof. apply word_set_strip. Qed.

Lemma similarity_ratio_titles (t s : string) :
  similarity_ratio (normalize_title t) (normalize_title s)
  = Spec.jaccard (title_words t) (title_words s).
Proof.
  rewrite !title_words_spec. apply similarity_ratio_jaccard.
Qed.

Lemma same_words_similar (self : NewsFilter) (title stored : string) :
  stored ∈ sent_headlines self →
  title_words title = title_words stored →
  title_words title ≠ ∅ →
  is_duplicate self title = true.
Proof.
  intros Hin Heq Hne. unfold is_duplicate.
  destruct (bool_decide (title ∈ sent_headlines self)); [done|].
  apply similar_to_any_iff. exists stored. split; [done|].
  rewrite similarity_ratio_titles, <- Heq. unfold Spec.jaccard.
  rewrite decide_False by tauto.
  assert (title_words title ∩ title_words title = title_words title) as ->
    by (apply leibniz_equiv, (idemp _)).
  assert (title_words title ∪ title_words title = title_words title) as ->
    by (apply leibniz_equiv, (idemp _)).
  assert (size (title_words title) ≠ 0) as Hs.
  { intros H0%size_empty_inv. apply Hne. by apply leibniz_equiv. }
  unfold Qlt. simpl. lia.
Qed.

(** X2.  Two titles with the same, non-empty, set of words after normalising
    (whatever the case, the punctuation, the order or the repetition of the
    words) are duplicates of each other: a title is rejected as soon as a
    stored title has its word set. *)
Theorem same_words_duplicate (self : NewsFilter) (title stored : string) :
  stored ∈ sent_headlines self →
  title_words title = title_words stored →
  title_words title ≠ ∅ →
  is_duplicate self title = true.
Proof. apply same_words_similar. Qed.

Lemma same_words_duplicate_witness :
  is_duplicate {| sent_headlines := ["SURGES: bitcoin, Bitcoin"]; disk := None |}
    "Bitcoin surges!" = true.
Proof.
  apply (same_words_duplicate _ _ "SURGES: bitcoin, Bitcoin").
  - apply list_elem_of_here.
  - vm_compute. reflexivity.
  - intros H. vm_compute in H. discriminate H.
Defined.

(** X3.  A title that normalises to no word at all (empty, or punctuation only)
    is a duplicate only of itself: against any history, [is_duplicate]
    answers whether the raw title is stored. *)
Theorem wordless_title_exact_only (self : NewsFilter) (title : string) :
  title_words title = ∅ →
  is_duplicate self title = bool_decide (title ∈ sent_headlines self).
Proof.
  intros Hw. unfold is_duplicate.
  destruct (bool_decide (title ∈ sent_headlines self)); [done|].
  destruct (similar_to_any _ _) eqn:E; [|done].
  apply similar_to_any_iff in E as (stored & _ & Hr).
  rewrite similarity_ratio_titles, Hw in Hr. unfold Spec.jaccard in Hr.
  rewrite decide_True in Hr by (by left). discriminate Hr.
Qed.

Lemma wordless_title_exact_only_witness :
  is_duplicate {| sent_headlines := ["!!!"; "Gold rallies"]; disk := None |} "?!"
  = bool_decide ("?!" ∈ ["!!!"; "Gold rallies"]).
Proof.
  apply (wordless_title_exact_only
           {| sent_headlines := ["!!!"; "Gold rallies"]; disk := None |} "?!").
  vm_compute. reflexivity.
Defined.

(** X4.  A longer history only finds more duplicates: a title that is a
    duplicate against a history is one against every history that holds the
    same titles and more; against the empty history nothing is a
    duplicate. *)
Theorem is_duplicate_monotone (self self' : NewsFilter) (title : string) :
  (∀ t, t ∈ sent_headlines self → t ∈ sent_headlines self') →
  (is_duplicate self title = true → is_duplicate self' title = true) ∧
  (sent_headlines self = [] → is_duplicate self title = false).
Proof.
  intros Hsub. split.
  - unfold is_duplicate.
    destruct (decide (title ∈ sent_headlines self')) as [Hin'|Hout'].
    { by rewrite (bool_decide_eq_true_2 _ Hin'). }
    rewrite (bool_decide_eq_false_2 _ Hout').
    destruct (decide (title ∈ sent_headlines self)) as [Hin|Hout].
    { by apply Hsub in Hin. }
    rewrite (bool_decide_eq_false_2 _ Hout).
    rewrite !similar_to_any_iff. intros (stored & Hs & Hr).
    exists stored. split; [by apply Hsub|done].
  - intros Hnil. unfold is_duplicate. rewrite Hnil.
    by rewrite bool_decide_eq_false_2 by apply not_elem_of_nil.
Qed.

Lemma is_duplicate_monotone_witness :
  is_duplicate {| sent_headlines := ["Silver dips"; "Gold rallies"]; disk := None |}
    "gold rallies" = true.
Proof.
  apply (proj1 (is_duplicate_monotone
           {| sent_headlines := ["Gold rallies"]; disk := None |}
           {| sent_headlines := ["Silver dips"; "Gold rallies"]; disk := None |}
           "gold rallies"
           (fun t Ht => list_elem_of_further _ _ _ Ht))).
  vm_compute. reflexivity.
Defined.

(** ** Case, keywords and the size of a score *)

Lemma lower_char_idem (c : ascii) :
  PyStr.lower_char (PyStr.lower_char c) = PyStr.lower_char c.
Proof. destruct c as [[] [] [] [] [] [] [] []]; reflexivity. Qed.

Lemma lower_idem (s : string) : PyStr.lower (PyStr.lower s) = PyStr.lower s.
Proof.
  induction s as [|c s IH]; [done|].
  cbn [PyStr.lower]. by rewrite lower_char_idem, IH.
Qed.

Lemma contains_empty (s : string) : PyStr.contains "" s = true.
Proof. by destruct s. Qed.

Lemma contains_keywords_iff (text : string) (keywords : list string) :
  contains_keywords text keywords = true ↔
  ∃ k, k ∈ keywords ∧ PyStr.contains (PyStr.lower k) (PyStr.lower text) = true.
Proof.
  induction keywords as [|k ks IH]; cbn [contains_keywords].
  - split; [done|]. by intros (? & ?%elem_of_nil & _).
  - destruct (PyStr.contains (PyStr.lower k) (PyStr.lower text)) eqn:E.
    + split; [|done]. intros _. exists k. split; [left|done].
    + rewrite IH. split.
      * intros (k' & Hk & Hc). exists k'. split; [by right|done].
      * intros (k' & [->|Hk]%elem_of_cons & Hc); [congruence|by exists k'].
Qed.

(** X5.  [contains_keywords] answers true exactly when one of the keywords,
    lowercased, is a substring of the lowercased text.  So it ignores the
    case of the text and of the keywords, an empty keyword matches every
    text, and an empty list matches none. *)
Theorem contains_keywords_spec (text : string) (keywords : list string) :
  (contains_keywords text keywords = true ↔
   ∃ k, k ∈ keywords ∧
        PyStr.contains (PyStr.lower k) (PyStr.lower text) = true) ∧
  contains_keywords (PyStr.lower text) (PyStr.lower <$> keywords)
  = contains_keywords text keywords ∧
  ("" ∈ keywords → contains_keywords text keywords = true) ∧
  contains_keywords text [] = false.
Proof.
  split; [apply contains_keywords_iff|]. split; [|split; [|done]].
  - apply eq_true_iff_eq. rewrite !contains_keywords_iff. split.
    + intros (k & Hk & Hc). apply list_elem_of_fmap in Hk as (k0 & -> & Hk0).
      rewrite !lower_idem in Hc. by exists k0.
    + intros (k & Hk & Hc). exists (PyStr.lower k).
      split; [by apply list_elem_of_fmap_2|]. by rewrite !lower_idem.
  - intros Hin. apply contains_keywords_iff. exists "".
    split; [done|]. apply contains_empty.
Qed.

(** X6.  The score does not depend on the case of the title and of the summary:
    an article scores what the same article with both lowercased scores. *)
Theorem calculate_relevance_score_ignores_case (cfg : Config) (a : Article)
    (t s : string) :
  Py.get a "title" (VStr "") = VStr t →
  Py.get a "summary" (VStr "") = VStr s →
  calculate_relevance_score cfg
    (<["title" := VStr (PyStr.lower t)]>
       (<["summary" := VStr (PyStr.lower s)]> a))
  = calculate_relevance_score cfg a.
Proof.
  intros Ht Hs. unfold calculate_relevance_score, Py.getitem.
  rewrite Ht, Hs. unfold Py.get.
  rewrite lookup_insert_eq, (lookup_insert_ne _ "title" "summary") by done.
  rewrite lookup_insert_eq, !lookup_insert_ne by done.
  cbn [Py.lower]. by rewrite !lower_idem.
Qed.

Lemma calculate_relevance_score_ignores_case_witness :
  calculate_relevance_score config
    (<["title" := VStr (PyStr.lower "GOLD Rallies")]>
       (<["summary" := VStr (PyStr.lower "Record HIGH")]>
          (mk_article "GOLD Rallies" "Record HIGH" "gold" "Kitco")))
  = calculate_relevance_score config
      (mk_article "GOLD Rallies" "Record HIGH" "gold" "Kitco").
Proof.
  apply (calculate_relevance_score_ignores_case config
           (mk_article "GOLD Rallies" "Record HIGH" "gold" "Kitco")
           "GOLD Rallies" "Record HIGH"); reflexivity.
Defined.

Lemma bonus_score_le (text : string) (terms : list (string * Q)) (score : Q) :
  Forall (fun p => (0 <= snd p)%Q) terms →
  (bonus_score text terms score <= score + total_weight terms)%Q.
Proof.
  intros H. revert score.
  induction H as [|[t w] terms Hw _ IH]; intros score; cbn [bonus_score total_weight foldr].
  - rewrite Qplus_0_r. apply Qle_refl.
  - eapply Qle_trans; [apply IH|]. fold (total_weight terms). cbn [snd] in *.
    destruct (PyStr.contains t text).
    + rewrite Qplus_assoc. apply Qle_refl.
    + rewrite Qplus_assoc. apply Qplus_le_compat; [|apply Qle_refl].
      rewrite <- (Qplus_0_r score) at 1.
      apply Qplus_le_compat; [apply Qle_refl|done].
Qed.

(** X7.  The important terms add at most 26.5 to the keyword score, however
    often they occur: the score lies between the keyword score and the
    keyword score plus 26.5. *)
Theorem relevance_score_bounds (cfg : Config) (a : Article) (q : Q)
    (t s : string) :
  Py.get a "title" (VStr "") = VStr t →
  Py.get a "summary" (VStr "") = VStr s →
  calculate_relevance_score cfg a = Ok q →
  (keyword_score (PyStr.lower t) (PyStr.lower s) (category_keywords cfg a) 0.0 <= q
   ∧ q <= keyword_score (PyStr.lower t) (PyStr.lower s)
             (category_keywords cfg a) 0.0 + 26.5)%Q.
Proof.
  intros Ht Hs Hq.
  destruct (calculate_relevance_score_inv _ _ _ Hq) as (t0 & s0 & c & _ & _ & Hc).
  rewrite (calculate_relevance_score_strs cfg a t s c Ht Hs Hc) in Hq.
  apply Ok_inj in Hq. subst q.
  assert (category_keywords cfg a
          = if Py.eq_str c "crypto" then CRYPTO_KEYWORDS cfg else GOLD_KEYWORDS cfg)
    as -> by (unfold category_keywords, Py.get; by rewrite Hc).
  split.
  - apply bonus_score_ge, important_terms_nonneg.
  - eapply Qle_trans; [apply bonus_score_le, important_terms_nonneg|].
    apply Qplus_le_compat; [apply Qle_refl|]. discriminate.
Qed.

Lemma relevance_score_bounds_witness :
  (keyword_score (PyStr.lower "Gold at record high") (PyStr.lower "")
     (category_keywords config (mk_article "Gold at record high" "" "gold" "Kitco"))
     0.0
   <= score_or_zero (calculate_relevance_score config
                       (mk_article "Gold at record high" "" "gold" "Kitco"))
   ∧ score_or_zero (calculate_relevance_score config
                      (mk_article "Gold at record high" "" "gold" "Kitco"))
     <= keyword_score (PyStr.lower "Gold at record high") (PyStr.lower "")
          (category_keywords config (mk_article "Gold at record high" "" "gold" "Kitco"))
          0.0 + 26.5)%Q.
Proof.
  apply (relevance_score_bounds config
           (mk_article "Gold at record high" "" "gold" "Kitco")).
  - reflexivity.
  - reflexivity.
  - vm_compute. reflexivity.
Defined.

(** ** The keyword gate against the threshold *)

Lemma count_contains (sub s : string) :
  sub ≠ "" → PyStr.contains sub s = true → (1 ≤ PyStr.count sub s)%nat.
Proof.
  intros Hne. destruct sub as [|a sub]; [done|]. unfold PyStr.count.
  induction s as [|c s IH]; cbn [PyStr.contains PyStr.count_from].
  - by rewrite orb_false_r.
  - destruct (PyStr.startswith (String a sub) (String c s)); [lia|].
    exact IH.
Qed.

Lemma keyword_score_hit (t s : string) (keywords : list string) (k : string)
    (score : Q) :
  k ∈ keywords →
  (1 ≤ PyStr.count (PyStr.lower k) t + PyStr.count (PyStr.lower k) s)%nat →
  (score + 1 <= keyword_score t s keywords score)%Q.
Proof.
  intros Hin Hc. revert score.
  induction keywords as [|k' ks IH]; intros score; [by apply elem_of_nil in Hin|].
  cbn [keyword_score].
  apply elem_of_cons in Hin as [<-|Hin].
  - eapply Qle_trans; [|apply keyword_score_ge].
    rewrite <- Qplus_assoc. apply Qplus_le_compat; [apply Qle_refl|].
    unfold Qcount, Qle, Qplus, Qmult, inject_Z. cbn [Qnum Qden]. lia.
  - eapply Qle_trans; [|apply (IH Hin)].
    apply Qplus_le_compat; [|apply Qle_refl].
    rewrite <- (Qplus_0_r score) at 1. rewrite <- Qplus_assoc.
    apply Qplus_le_compat; [apply Qle_refl|].
    unfold Qcount, Qle, Qplus, Qmult, inject_Z. cbn [Qnum Qden]. lia.
Qed.

(** X8.  An article that is not a duplicate and whose title and summary hold a
    keyword of its category is always accepted, with a score of at least
    1.0: the 0.1 threshold can only reject an article that passed the
    keyword gate through its source. *)
Theorem keyword_match_accepted (cfg : Config) (self : NewsFilter) (a : Article)
    (t s : string) (c : value) :
  Forall plain_keyword (category_keywords cfg a) →
  a !! "title" = Some (VStr t) → t ≠ "" →
  Py.get a "summary" (VStr "") = VStr s →
  a !! "category" = Some c →
  is_duplicate self t = false →
  contains_keywords (t ++ " " ++ s) (category_keywords cfg a) = true →
  ∃ q, filter_article cfg self a
       = Ok (<["relevance_score" := VFloat q]> a, true) ∧ (1 <= q)%Q.
Proof.
  intros Hplain Ht Hne Hs Hc Hdup Hkw.
  assert (Py.get a "title" (VStr "") = VStr t) as Hgt
    by (unfold Py.get; by rewrite Ht).
  assert (category_keywords cfg a
          = if Py.eq_str c "crypto" then CRYPTO_KEYWORDS cfg else GOLD_KEYWORDS cfg)
    as Hcat by (unfold category_keywords, Py.get; by rewrite Hc).
  rewrite Hcat in *.
  pose proof (calculate_relevance_score_strs cfg a t s c Hgt Hs Hc) as Hq.
  set (kws := if Py.eq_str c "crypto" then CRYPTO_KEYWORDS cfg
              else GOLD_KEYWORDS cfg) in *.
  set (q := bonus_score _ _ _) in Hq.
  assert (1 <= q)%Q as H1.
  { apply contains_keywords_iff in Hkw as (k & Hk & Hin).
    rewrite Forall_forall in Hplain. destruct (Hplain k Hk) as [Hk1 Hk2].
    rewrite lower_sep, sep_cons, contains_sep in Hin by done.
    eapply Qle_trans; [|apply bonus_score_ge, important_terms_nonneg].
    eapply Qle_trans; [|apply (keyword_score_hit _ _ kws k _ Hk)].
    - discriminate.
    - apply orb_true_iff in Hin as [Hin|Hin];
        apply (count_contains _ _ Hk1) in Hin; lia. }
  assert (Qle_bool 0.1 q = true) as Hth.
  { apply Qle_bool_iff. eapply Qle_trans; [|exact H1]. discriminate. }
  exists q. split; [|done].
  unfold filter_article, has_keywords, Py.getitem.
  rewrite Hq, Hc, Ht, Hgt, Hs.
  assert (Py.get a "title" VNone = VStr t) as ->
    by (unfold Py.get; by rewrite Ht).
  unfold_result. cbn [Py.truthy Py.format is_duplicate_value].
  rewrite (proj2 (String.eqb_neq t "") Hne), Hdup. cbn [negb].
  subst kws. destruct (Py.eq_str c "crypto"); rewrite Hkw; cbn [negb];
    by rewrite Hth.
Qed.

Lemma keyword_match_accepted_witness :
  ∃ q, filter_article config empty_filter
         (mk_article "Gold rallies" "Bullion up" "gold" "Kitco")
       = Ok (<["relevance_score" := VFloat q]>
               (mk_article "Gold rallies" "Bullion up" "gold" "Kitco"), true)
       ∧ (1 <= q)%Q.
Proof.
  apply (keyword_match_accepted config empty_filter
           (mk_article "Gold rallies" "Bullion up" "gold" "Kitco")
           "Gold rallies" "Bullion up" (VStr "gold")).
  - exact (proj2 config_keywords_plain).
  - reflexivity.
  - discriminate.
  - reflexivity.
  - reflexivity.
  - vm_compute. reflexivity.
  - vm_compute. reflexivity.
Defined.

Lemma half_integer_keyword_score (t s : string) (keywords : list string) (q : Q) :
  half_integer q → half_integer (keyword_score t s keywords q).
Proof.
  revert q. induction keywords as [|k ks IH]; intros q Hq; [done|].
  cbn [keyword_score]. apply IH. destruct Hq as [z Hz].
  exists (z + 4 * Z.of_nat (PyStr.count (PyStr.lower k) t)
            + 2 * Z.of_nat (PyStr.count (PyStr.lower k) s))%Z.
  rewrite Hz. unfold Qcount, Qeq, Qplus, Qmult, inject_Z. cbn [Qnum Qden]. lia.
Qed.

Lemma half_integer_bonus_score (text : string) (terms : list (string * Q)) (q : Q) :
  Forall (fun p => half_integer (snd p)) terms →
  half_integer q → half_integer (bonus_score text terms q).
Proof.
  intros H. revert q.
  induction H as [|[term w] terms Hw _ IH]; intros q Hq; [done|].
  cbn [bonus_score]. apply IH. destruct (PyStr.contains term text); [|done].
  destruct Hq as [z Hz], Hw as [z' Hz']. cbn [snd] in Hz'.
  exists (z + z')%Z. rewrite Hz, Hz'.
  unfold Qeq, Qplus. cbn [Qnum Qden]. lia.
Qed.

Lemma important_terms_halves :
  Forall (fun p : string * Q => half_integer (snd p)) important_terms.
Proof.
  repeat constructor; cbn [snd];
    [exists 6%Z|exists 6%Z|exists 5%Z|exists 5%Z|exists 4%Z|exists 4%Z
    |exists 4%Z|exists 3%Z|exists 3%Z|exists 4%Z|exists 5%Z|exists 4%Z];
    reflexivity.
Qed.

(** X9.  Every score is a whole number of halves, so the threshold
    [relevance_score >= 0.1] holds exactly when the score is positive, and
    then the score is at least 0.5: the threshold rejects the articles that
    score 0.0 and no others. *)
Theorem threshold_rejects_only_zero (cfg : Config) (a : Article) (q : Q) :
  calculate_relevance_score cfg a = Ok q →
  half_integer q ∧
  (Qle_bool 0.1 q = true ↔ (0 < q)%Q) ∧
  (Qle_bool 0.1 q = false ↔ (q == 0)%Q) ∧
  (Qle_bool 0.1 q = true → (0.5 <= q)%Q).
Proof.
  intros Hq.
  assert (half_integer q) as Hh.
  { destruct (calculate_relevance_score_inv _ _ _ Hq) as (t & s & c & Ht & Hs & Hc).
    rewrite (calculate_relevance_score_strs cfg a t s c Ht Hs Hc) in Hq.
    apply Ok_inj in Hq. subst q.
    apply half_integer_bonus_score; [apply important_terms_halves|].
    apply half_integer_keyword_score. by exists 0%Z. }
  split; [done|].
  assert (0 <= q)%Q as Hpos.
  { destruct (calculate_relevance_score_inv _ _ _ Hq) as (t & s & c & Ht & Hs & Hc).
    rewrite (calculate_relevance_score_strs cfg a t s c Ht Hs Hc) in Hq.
    apply Ok_inj in Hq. subst q.
    eapply Qle_trans; [|apply bonus_score_ge, important_terms_nonneg].
    eapply Qle_trans; [|apply keyword_score_ge]. discriminate. }
  destruct Hh as [z Hz].
  assert (Qle_bool 0.1 q = true ↔ (1 ≤ z)%Z) as Hth.
  { rewrite Qle_bool_iff, Hz. unfold Qle. cbn [Qnum Qden]. lia. }
  rewrite Hz in Hpos. unfold Qle in Hpos. cbn [Qnum Qden] in Hpos.
  split; [|split].
  - rewrite Hth, Hz. unfold Qlt. cbn [Qnum Qden]. lia.
  - rewrite <- not_true_iff_false, Hth, Hz. unfold Qeq. cbn [Qnum Qden]. lia.
  - rewrite Hth, Hz. unfold Qle. cbn [Qnum Qden]. lia.
Qed.

Lemma threshold_rejects_only_zero_witness :
  (Qle_bool 0.1 (score_or_zero
                   (calculate_relevance_score config
                      (mk_article "Quiet day" "" "crypto" "CoinDesk"))) = false
   ↔ (score_or_zero
        (calculate_relevance_score config
           (mk_article "Quiet day" "" "crypto" "CoinDesk")) == 0)%Q).
Proof.
  apply (threshold_rejects_only_zero config
           (mk_article "Quiet day" "" "crypto" "CoinDesk")).
  vm_compute. reflexivity.
Defined.

(** ** What the filter returns, and what it leaves alone *)

(** X10.  Every article [filter_articles] returns passed every gate: its title
    is not in the history and is no near-duplicate of a stored title, the
    keyword gate let it through, and the score it carries is the one
    [calculate_relevance_score] gives it, at least 0.1. *)
Theorem filter_articles_sound (cfg : Config) (self : NewsFilter)
    (articles out : list Article) (x : Article) :
  returned (filter_articles cfg self articles) = Some out →
  x ∈ out →
  ∃ a t,
    a ∈ articles ∧
    x = <["relevance_score" := VFloat (score_of x)]> a ∧
    a !! "title" = Some (VStr t) ∧
    (t ∉ sent_headlines self) ∧
    is_duplicate self t = false ∧
    has_keywords cfg a = Ok true ∧
    calculate_relevance_score cfg a = Ok (score_of x) ∧
    (0.1 <= score_of x)%Q.
Proof.
  rewrite filter_articles_eq. intros [= <-] Hx.
  apply elem_of_take in Hx as (i & Hx & _).
  apply list_elem_of_lookup_2 in Hx. rewrite ranked_perm in Hx.
  apply accepted_origin in Hx as (a & Ha & Hf).
  apply filter_article_appended in Hf
    as (t & q & Ht & _ & Hdup & Hk & Hq & Hth & ->).
  assert (score_of (<["relevance_score" := VFloat q]> a) = q) as ->
    by (unfold score_of; by rewrite lookup_insert_eq).
  exists a, t. repeat split; try done.
  - intros Hin. unfold is_duplicate in Hdup.
    by rewrite bool_decide_eq_true_2 in Hdup.
  - by apply Qle_bool_iff.
Qed.

Lemma filter_articles_sound_witness :
  ∃ a t,
    a ∈ [mk_article "Gold rallies" "" "gold" "Kitco"] ∧
    annotate config (mk_article "Gold rallies" "" "gold" "Kitco")
    = <["relevance_score" :=
          VFloat (score_of (annotate config
                              (mk_article "Gold rallies" "" "gold" "Kitco")))]> a ∧
    a !! "title" = Some (VStr t) ∧
    (t ∉ sent_headlines empty_filter) ∧
    is_duplicate empty_filter t = false ∧
    has_keywords config a = Ok true ∧
    calculate_relevance_score config a
    = Ok (score_of (annotate config (mk_article "Gold rallies" "" "gold" "Kitco"))) ∧
    (0.1 <= score_of (annotate config
                        (mk_article "Gold rallies" "" "gold" "Kitco")))%Q.
Proof.
  apply (filter_articles_sound config empty_filter
           [mk_article "Gold rallies" "" "gold" "Kitco"]
           [annotate config (mk_article "Gold rallies" "" "gold" "Kitco")]).
  - vm_compute. reflexivity.
  - apply list_elem_of_here.
Defined.

Lemma filter_loop_frame (cfg : Config) (self : NewsFilter) (articles : list Article) :
  Forall2 (fun a a' => a' = a ∨ ∃ q, a' = <["relevance_score" := VFloat q]> a)
    articles (filter_loop cfg self articles).1.
Proof.
  induction articles as [|a l IH]; [constructor|].
  cbn [filter_loop].
  destruct (filter_article cfg self a) as [[a' b]|e] eqn:Ha;
    destruct (filter_loop cfg self l) as [l' acc]; cbn [fst] in *;
    constructor; try done.
  - destruct (filter_article_result _ _ _ _ _ Ha)
      as [[-> _]|(t & q & _ & _ & _ & _ & _ & -> & _)]; [by left|right; by exists q].
  - by left.
Qed.

Lemma accepted_in_loop (cfg : Config) (self : NewsFilter) (articles : list Article)
    (x : Article) :
  x ∈ accepted cfg self articles → x ∈ (filter_loop cfg self articles).1.
Proof.
  unfold accepted. induction articles as [|a l IH]; [done|].
  cbn [filter_loop].
  destruct (filter_article cfg self a) as [[a' [|]]|e];
    destruct (filter_loop cfg self l) as [l' acc]; cbn [fst snd] in *.
  - intros [->|Hx]%elem_of_cons; [left|right; by apply IH].
  - intros Hx. right. by apply IH.
  - intros Hx. right. by apply IH.
Qed.

(** X11.  [filter_articles] writes nothing in its input but [relevance_score]:
    the list keeps its length and its order, every other key of every
    article keeps its value, and the articles returned are articles of the
    list as the call leaves it. *)
Theorem filter_articles_frame (cfg : Config) (self : NewsFilter)
    (articles : list Article) :
  ∃ articles' out,
    filter_articles cfg self articles = Ok (self, articles', out) ∧
    Forall2 (fun a a' => ∀ k, k ≠ "relevance_score" → a' !! k = a !! k)
      articles articles' ∧
    ∀ x, x ∈ out → x ∈ articles'.
Proof.
  eexists _, _. split; [apply filter_articles_eq|]. split.
  - eapply Forall2_impl; [apply filter_loop_frame|].
    intros a a' [->|[q ->]] k Hk; [done|]. by rewrite lookup_insert_ne.
  - intros x Hx. apply accepted_in_loop.
    apply elem_of_take in Hx as (i & Hx & _).
    apply list_elem_of_lookup_2 in Hx. by rewrite ranked_perm in Hx.
Qed.

(** ** Sending, restarting and cleaning up *)

Lemma mark_as_sent_headlines (cfg : Config) (io : write_outcome)
    (self : NewsFilter) (title : string) :
  sent_headlines (mark_as_sent cfg io self title)
  = (sent_headlines self ++ [title])%list.
Proof. unfold mark_as_sent, save_sent_headlines. by destruct io. Qed.

(** X12.  Once a title is marked as sent, [filter_articles] returns no article
    with that title, nor one whose title has the same, non-empty, word set,
    whether or not the save succeeded. *)
Theorem sent_title_not_returned (cfg : Config) (self : NewsFilter)
    (io : write_outcome) (title : string) (articles out : list Article)
    (x : Article) (t : string) :
  returned (filter_articles cfg (mark_as_sent cfg io self title) articles)
  = Some out →
  x ∈ out →
  x !! "title" = Some (VStr t) →
  t ≠ title ∧ (title_words t = title_words title → title_words t = ∅).
Proof.
  rewrite filter_articles_eq. intros [= <-] Hx Ht.
  apply elem_of_take in Hx as (i & Hx & _).
  apply list_elem_of_lookup_2 in Hx. rewrite ranked_perm in Hx.
  apply accepted_origin in Hx as (a & Ha & Hf).
  apply filter_article_appended in Hf
    as (t' & q & Ht' & _ & Hdup & _ & _ & _ & ->).
  rewrite lookup_insert_ne, Ht' in Ht by done. injection Ht as ->.
  assert (title ∈ sent_headlines (mark_as_sent cfg io self title)) as Hin.
  { rewrite mark_as_sent_headlines. apply elem_of_app. right. left. }
  split.
  - intros ->. unfold is_duplicate in Hdup.
    by rewrite bool_decide_eq_true_2 in Hdup.
  - intros Heq. destruct (decide (title_words t = ∅)) as [|Hne]; [done|].
    by rewrite (same_words_similar _ t title Hin Heq Hne) in Hdup.
Qed.

Lemma sent_title_not_returned_witness :
  "Silver price dips" ≠ "Gold rallies" ∧
  (title_words "Silver price dips" = title_words "Gold rallies" →
   title_words "Silver price dips" = ∅).
Proof.
  apply (sent_title_not_returned config empty_filter DumpFailed "Gold rallies"
           [mk_article "Gold rallies" "" "gold" "Kitco";
            mk_article "Silver price dips" "" "gold" "Kitco"]
           [annotate config (mk_article "Silver price dips" "" "gold" "Kitco")]
           (annotate config (mk_article "Silver price dips" "" "gold" "Kitco"))).
  - vm_compute. reflexivity.
  - apply list_elem_of_here.
  - vm_compute. reflexivity.
Defined.

Lemma slice_last_suffix {A : Type} (n : Z) (l : list A) :
  Py.slice_last n l `suffix_of` l.
Proof.
  unfold Py.slice_last.
  destruct (n =? 0)%Z; [done|]. destruct (0 <? n)%Z; apply suffix_drop.
Qed.

Lemma slice_last_snoc {A : Type} (n : Z) (l : list A) (x : A) :
  (0 < n)%Z → x ∈ Py.slice_last n (l ++ [x]).
Proof.
  intros Hn. rewrite slice_last_drop by done.
  rewrite length_app. cbn [length].
  rewrite drop_app_le by lia. apply elem_of_app. right. left.
Qed.

Lemma slice_last_idem {A : Type} (n : Z) (l : list A) :
  (0 <= n)%Z → Py.slice_last n (Py.slice_last n l) = Py.slice_last n l.
Proof.
  intros Hn. unfold Py.slice_last.
  destruct (n =? 0)%Z eqn:E0; [done|].
  destruct (0 <? n)%Z eqn:E1; [|lia].
  rewrite length_drop. rewrite drop_drop. f_equal. lia.
Qed.

(** X13.  After a successful save a restart still knows the title just sent: the
    history a new [NewsFilter] loads is the tail of the history in memory,
    it holds the title, and [is_duplicate] rejects it. *)
Theorem restart_remembers_last_sent (cfg : Config) (self : NewsFilter)
    (title : string) :
  (0 < MAX_STORED_HEADLINES cfg)%Z →
  let self' := mark_as_sent cfg Written self title in
  let restarted := new_filter (disk self') in
  sent_headlines restarted `suffix_of` sent_headlines self' ∧
  title ∈ sent_headlines restarted ∧
  is_duplicate restarted title = true.
Proof.
  intros Hmax self' restarted.
  assert (sent_headlines restarted
          = Py.slice_last (MAX_STORED_HEADLINES cfg) (sent_headlines self ++ [title]))
    as Hr by done.
  assert (title ∈ sent_headlines restarted) as Hin
    by (rewrite Hr; by apply slice_last_snoc).
  split; [|split; [done|]].
  - rewrite Hr. unfold self'. rewrite mark_as_sent_headlines.
    apply slice_last_suffix.
  - unfold is_duplicate. by rewrite bool_decide_eq_true_2.
Qed.

Lemma restart_remembers_last_sent_witness :
  is_duplicate
    (new_filter (disk (mark_as_sent config Written empty_filter "Gold rallies")))
    "Gold rallies" = true.
Proof.
  apply (restart_remembers_last_sent config empty_filter "Gold rallies").
  reflexivity.
Defined.

(** X14.  [cleanup_old_data] brings the history in memory down to its most
    recent [MAX_STORED_HEADLINES] entries; when its save succeeds the file
    holds the same list; and cleaning up twice is cleaning up once. *)
Theorem cleanup_old_data_bounds (cfg : Config) (io : write_outcome)
    (self : NewsFilter) :
  (0 < MAX_STORED_HEADLINES cfg)%Z →
  let self' := cleanup_old_data cfg io self in
  (length (sent_headlines self') ≤ Z.to_nat (MAX_STORED_HEADLINES cfg))%nat ∧
  sent_headlines self' `suffix_of` sent_headlines self ∧
  (io = Written → persisted self' = sent_headlines self') ∧
  sent_headlines (cleanup_old_data cfg io self') = sent_headlines self'.
Proof.
  intros Hmax self'.
  assert (sent_headlines self'
          = Py.slice_last (MAX_STORED_HEADLINES cfg) (sent_headlines self)) as Hs
    by (unfold self', cleanup_old_data, save_sent_headlines; by destruct io).
  split; [|split; [|split]].
  - rewrite Hs.
    pose proof (slice_last_length (MAX_STORED_HEADLINES cfg) (sent_headlines self) Hmax).
    lia.
  - rewrite Hs. apply slice_last_suffix.
  - intros ->. rewrite Hs.
    unfold self', cleanup_old_data, save_sent_headlines, persisted. cbn.
    apply slice_last_idem. lia.
  - assert (sent_headlines (cleanup_old_data cfg io self')
            = Py.slice_last (MAX_STORED_HEADLINES cfg) (sent_headlines self')) as ->
      by (unfold cleanup_old_data, save_sent_headlines; by destruct io).
    rewrite Hs. apply slice_last_idem. lia.
Qed.

Lemma cleanup_old_data_bounds_witness :
  (length (sent_headlines
             (cleanup_old_data config Written
                (mark_all_as_sent config empty_filter (pretty <$> seq 0 60))))
   ≤ Z.to_nat (MAX_STORED_HEADLINES config))%nat.
Proof.
  apply (cleanup_old_data_bounds config Written
           (mark_all_as_sent config empty_filter (pretty <$> seq 0 60))).
  reflexivity.
Defined.

Lemma save_persisted_bound (cfg : Config) (io : write_outcome) (self : NewsFilter) :
  (0 < MAX_STORED_HEADLINES cfg)%Z →
  (length (persisted self) ≤ Z.to_nat (MAX_STORED_HEADLINES cfg))%nat →
  (length (persisted (save_sent_headlines cfg io self))
   ≤ Z.to_nat (MAX_STORED_HEADLINES cfg))%nat.
Proof.
  intros Hmax Hold. destruct io; unfold save_sent_headlines, persisted; cbn.
  - pose proof (slice_last_length (MAX_STORED_HEADLINES cfg) (sent_headlines self) Hmax).
    lia.
  - done.
  - lia.
Qed.

(** X15.  Whatever sequence of [mark_as_sent] and [cleanup_old_data] runs, and
    whichever of their saves fail, the history on file never holds more than
    [MAX_STORED_HEADLINES] titles if it did not at the start. *)
Theorem persisted_history_bounded (cfg : Config) (self : NewsFilter)
    (ops : list history_op) :
  (0 < MAX_STORED_HEADLINES cfg)%Z →
  (length (persisted self) ≤ Z.to_nat (MAX_STORED_HEADLINES cfg))%nat →
  (length (persisted (run_ops cfg self ops))
   ≤ Z.to_nat (MAX_STORED_HEADLINES cfg))%nat.
Proof.
  intros Hmax. revert self. unfold run_ops.
  induction ops as [|op ops IH]; intros self Hold; [done|].
  cbn [fold_left]. apply IH.
  destruct op as [title io|io]; cbn [apply_op].
  - unfold mark_as_sent. by apply save_persisted_bound.
  - unfold cleanup_old_data. by apply save_persisted_bound.
Qed.

Lemma persisted_history_bounded_witness :
  (length (persisted
             (run_ops config (new_filter None)
                [MarkAsSent "Gold rallies" Written; CleanupOldData OpenFailed;
                 MarkAsSent "Silver dips" DumpFailed]))
   ≤ Z.to_nat (MAX_STORED_HEADLINES config))%nat.
Proof.
  apply (persisted_history_bounded config (new_filter None)).
  - reflexivity.
  - vm_compute. lia.
Defined.

(** ** From the feed to the filter *)

Section Strip.

Implicit Types (s u : string) (c : ascii).

Lemma lstrip_idem s : PyStr.lstrip (PyStr.lstrip s) = PyStr.lstrip s.
Proof.
  induction s as [|c s IH]; [done|]. cbn [PyStr.lstrip].
  destruct (PyStr.is_space c) eqn:Hc; [done|].
  cbn [PyStr.lstrip]. by rewrite Hc.
Qed.

Lemma rstrip_cons c s :
  PyStr.rstrip (String c s)
  = match PyStr.rstrip s with
    | EmptyString => if PyStr.is_space c then EmptyString else String c EmptyString
    | r => String c r
    end.
Proof. done. Qed.

Lemma rstrip_idem s : PyStr.rstrip (PyStr.rstrip s) = PyStr.rstrip s.
Proof.
  induction s as [|c s IH]; [done|]. rewrite rstrip_cons.
  destruct (PyStr.rstrip s) as [|c' r] eqn:Hr.
  - destruct (PyStr.is_space c) eqn:Hc; [done|].
    rewrite rstrip_cons. cbn [PyStr.rstrip]. by rewrite Hc.
  - rewrite rstrip_cons, IH. done.
Qed.

Lemma lstrip_rstrip u :
  PyStr.lstrip u = u → PyStr.lstrip (PyStr.rstrip u) = PyStr.rstrip u.
Proof.
  destruct u as [|c u]; [done|]. cbn [PyStr.lstrip].
  destruct (PyStr.is_space c) eqn:Hc.
  - intros H. exfalso. apply (f_equal String.length) in H.
    assert (∀ s, (String.length (PyStr.lstrip s) ≤ String.length s)%nat) as Hl.
    { clear. induction s as [|c s IH]; [done|]. cbn [PyStr.lstrip].
      destruct (PyStr.is_space c); simpl in *; lia. }
    specialize (Hl u). simpl in H. lia.
  - intros _. rewrite rstrip_cons.
    destruct (PyStr.rstrip u); rewrite ?Hc; cbn [PyStr.lstrip]; by rewrite Hc.
Qed.

Lemma strip_idem s : PyStr.strip (PyStr.strip s) = PyStr.strip s.
Proof.
  unfold PyStr.strip.
  rewrite (lstrip_rstrip (PyStr.lstrip s)) by apply lstrip_idem.
  apply rstrip_idem.
Qed.

End Strip.

Lemma parse_entry_article (source : Article) (category : string)
    (entry : Fetch.Entry) (a : Article) :
  Fetch.parse_entry source category entry = Ok (Some a) →
  ∃ t s,
    a !! "title" = Some (VStr t) ∧ t ≠ "" ∧ PyStr.strip t = t ∧
    a !! "summary" = Some (VStr s) ∧ PyStr.strip s = s ∧
    a !! "category" = Some (VStr category) ∧
    a !! "source" = Some (Py.get source "title" (VStr "Unknown")) ∧
    Py.truthy (Py.get a "link" VNone) = true ∧
    a !! "relevance_score" = None.
Proof.
  unfold Fetch.parse_entry. unfold_result.
  destruct (Fetch.date entry) as [|d [|]|]; try done.
  all: destruct (Py.get (Fetch.fields entry) "title" (VStr "")) as [|t0| |];
    try done; cbn [Fetch.strip].
  all: destruct (Py.get (Fetch.fields entry) "summary" (VStr "")) as [|s0| |];
    try done; cbn [Fetch.strip].
  all: destruct (Py.truthy (VStr (PyStr.strip t0))) eqn:Ht; cbn [negb orb];
    [|done].
  all: destruct (Py.truthy (Py.get (Fetch.fields entry) "link" (VStr "")))
    eqn:Hl; cbn [negb]; [|done].
  all: intros [= <-]; exists (PyStr.strip t0), (PyStr.strip s0).
  all: repeat split; try by rewrite ?strip_idem.
  all: try (intros E; cbn [Py.truthy] in Ht; by rewrite E in Ht).
  all: unfold Py.get at 1; by rewrite lookup_insert_ne, lookup_insert_eq.
Qed.

Lemma parse_entries_origin (source : Article) (category : string)
    (entries : list Fetch.Entry) (a : Article) :
  a ∈ Fetch.parse_entries source category entries →
  ∃ entry, entry ∈ entries ∧
           Fetch.parse_entry source category entry = Ok (Some a).
Proof.
  induction entries as [|e l IH]; [by intros ?%elem_of_nil|].
  cbn [Fetch.parse_entries].
  destruct (Fetch.parse_entry source category e) as [[a'|]|x] eqn:He.
  - intros [->|Hin]%elem_of_cons.
    + exists e. split; [left|done].
    + destruct (IH Hin) as (e' & ? & ?). exists e'. split; [by right|done].
  - intros Hin. destruct (IH Hin) as (e' & ? & ?). exists e'. split; [by right|done].
  - intros Hin. destruct (IH Hin) as (e' & ? & ?). exists e'. split; [by right|done].
Qed.

(** X16.  Every article [parse_articles] produces has a title and a summary that
    are strings without surrounding whitespace, the title not empty (so
    never whitespace only), a link that is not empty, the category it was
    asked for, and no [relevance_score] yet. *)
Theorem parse_articles_well_formed (max_articles_per_fetch : Z)
    (feed : option Fetch.Feed) (category : string) (a : Article) :
  a ∈ Fetch.parse_articles max_articles_per_fetch feed category →
  ∃ t s,
    a !! "title" = Some (VStr t) ∧ t ≠ "" ∧ PyStr.strip t = t ∧
    a !! "summary" = Some (VStr s) ∧ PyStr.strip s = s ∧
    a !! "category" = Some (VStr category) ∧
    Py.truthy (Py.get a "link" VNone) = true ∧
    a !! "relevance_score" = None.
Proof.
  destruct feed as [f|]; [|by intros ?%elem_of_nil].
  intros Ha. apply parse_entries_origin in Ha as (e & _ & He).
  apply parse_entry_article in He
    as (t & s & Ht & Hne & Hst & Hs & Hss & Hc & _ & Hl & Hr).
  by exists t, s.
Qed.

Lemma parse_articles_sample :
  Fetch.parse_articles 15 (Some sample_feed) "gold" = [sample_article].
Proof. vm_compute. reflexivity. Qed.

Lemma parse_articles_well_formed_witness :
  ∃ t s,
    sample_article !! "title" = Some (VStr t) ∧ t ≠ "" ∧ PyStr.strip t = t ∧
    sample_article !! "summary" = Some (VStr s) ∧ PyStr.strip s = s ∧
    sample_article !! "category" = Some (VStr "gold") ∧
    Py.truthy (Py.get sample_article "link" VNone) = true ∧
    sample_article !! "relevance_score" = None.
Proof.
  apply (parse_articles_well_formed 15 (Some sample_feed) "gold" sample_article).
  rewrite parse_articles_sample. apply list_elem_of_here.
Defined.

Lemma parse_entries_length (source : Article) (category : string)
    (entries : list Fetch.Entry) :
  (length (Fetch.parse_entries source category entries) ≤ length entries)%nat.
Proof.
  induction entries as [|e l IH]; [done|]. cbn [Fetch.parse_entries].
  destruct (Fetch.parse_entry source category e) as [[a|]|x]; simpl; lia.
Qed.

(** X17.  [parse_articles] never produces more articles than the feed has
    entries, nor more than [MAX_ARTICLES_PER_FETCH] when that is not
    negative; from no feed it produces none. *)
Theorem parse_articles_bounded (max_articles_per_fetch : Z)
    (feed : option Fetch.Feed) (category : string) :
  (length (Fetch.parse_articles max_articles_per_fetch feed category)
   ≤ match feed with Some f => length (Fetch.entries f) | None => 0 end)%nat ∧
  ((0 <= max_articles_per_fetch)%Z →
   (length (Fetch.parse_articles max_articles_per_fetch feed category)
    ≤ Z.to_nat max_articles_per_fetch)%nat).
Proof.
  destruct feed as [f|]; [|split; simpl; lia].
  cbn [Fetch.parse_articles].
  pose proof (parse_entries_length (Fetch.feed f) category
                (Fetch.slice_first max_articles_per_fetch (Fetch.entries f))) as H.
  unfold Fetch.slice_first in *.
  split.
  - destruct (0 <=? max_articles_per_fetch)%Z; rewrite length_take in H; lia.
  - intros Hmax. destruct (Z.leb_spec 0 max_articles_per_fetch); [|lia].
    rewrite length_take in H. lia.
Qed.

Lemma filter_article_well_formed (cfg : Config) (self : NewsFilter) (a : Article)
    (t s src : string) (c : value) :
  a !! "title" = Some (VStr t) →
  Py.get a "summary" (VStr "") = VStr s →
  Py.get a "source" (VStr "") = VStr src →
  a !! "category" = Some c →
  is_raise (filter_article cfg self a) = false.
Proof.
  intros Ht Hs Hsrc Hc.
  assert (Py.get a "title" (VStr "") = VStr t) as Hgt
    by (unfold Py.get; by rewrite Ht).
  unfold filter_article, has_keywords, Py.getitem.
  rewrite (calculate_relevance_score_strs cfg a t s c Hgt Hs Hc).
  rewrite Hc, Ht, Hsrc. unfold_result.
  destruct (negb (Py.truthy (Py.get a "title" VNone))); [done|].
  cbn [is_duplicate_value]. destruct (is_duplicate self t); [done|].
  cbn [Py.lower].
  destruct (Py.eq_str c "crypto");
    destruct (contains_keywords _ _); cbn [negb];
    repeat (match goal with |- context [if ?b then _ else _] => destruct b end);
    done.
Qed.

(** X18.  An article with a string title, a category, and a summary and a source
    that are strings where present never makes the body of the loop raise:
    it is accepted or skipped on its merits. *)
Theorem well_formed_article_never_raises (cfg : Config) (self : NewsFilter)
    (a : Article) (t : string) (c : value) :
  a !! "title" = Some (VStr t) →
  a !! "category" = Some c →
  str_or_missing (a !! "summary") →
  str_or_missing (a !! "source") →
  is_raise (filter_article cfg self a) = false.
Proof.
  intros Ht Hc Hs Hsrc.
  assert (∃ s, Py.get a "summary" (VStr "") = VStr s) as [s Es].
  { unfold Py.get. destruct (a !! "summary") as [[]|]; try done; by eexists. }
  assert (∃ s, Py.get a "source" (VStr "") = VStr s) as [src Esrc].
  { unfold Py.get. destruct (a !! "source") as [[]|]; try done; by eexists. }
  by apply (filter_article_well_formed cfg self a t s src c).
Qed.

Lemma well_formed_article_never_raises_witness :
  is_raise (filter_article config empty_filter
              (<["title" := VStr "Quiet day"]> (<["category" := VNone]> ∅)))
  = false.
Proof.
  apply (well_formed_article_never_raises config empty_filter
           (<["title" := VStr "Quiet day"]> (<["category" := VNone]> ∅))
           "Quiet day" VNone).
  - reflexivity.
  - reflexivity.
  - vm_compute. exact I.
  - vm_compute. exact I.
Defined.

(** X19.  What [parse_articles] produces from a feed whose title is a string (or
    that has none) goes through the filter without an exception: every
    parsed article is judged, none is dropped by the [except] branch. *)
Theorem parsed_articles_never_raise (cfg : Config) (self : NewsFilter)
    (max_articles_per_fetch : Z) (f : Fetch.Feed) (category : string)
    (a : Article) :
  str_or_missing (Fetch.feed f !! "title") →
  a ∈ Fetch.parse_articles max_articles_per_fetch (Some f) category →
  is_raise (filter_article cfg self a) = false ∧
  ∃ q, calculate_relevance_score cfg a = Ok q.
Proof.
  intros Hsrc Ha. cbn [Fetch.parse_articles] in Ha.
  apply parse_entries_origin in Ha as (e & _ & He).
  apply parse_entry_article in He
    as (t & s & Ht & _ & _ & Hs & _ & Hc & Hso & _ & _).
  assert (∃ src, Py.get (Fetch.feed f) "title" (VStr "Unknown") = VStr src)
    as [src Esrc].
  { unfold Py.get. destruct (Fetch.feed f !! "title") as [[]|]; try done; by eexists. }
  rewrite Esrc in Hso.
  assert (Py.get a "summary" (VStr "") = VStr s) as Hgs
    by (unfold Py.get; by rewrite Hs).
  split.
  - apply (filter_article_well_formed cfg self a t s src (VStr category));
      try done.
    unfold Py.get. by rewrite Hso.
  - eexists. apply (calculate_relevance_score_strs cfg a t s (VStr category));
      try done.
    unfold Py.get. by rewrite Ht.
Qed.

Lemma parsed_articles_never_raise_witness :
  is_raise (filter_article config empty_filter sample_article) = false ∧
  ∃ q, calculate_relevance_score config sample_article = Ok q.
Proof.
  apply (parsed_articles_never_raise config empty_filter 15 sample_feed "gold").
  - vm_compute. exact I.
  - rewrite parse_articles_sample. apply list_elem_of_here.
Defined.

(** ** One cycle of the scheduler *)

Lemma send_alerts_titled (cfg : Config) (delivery : nat → bool * write_outcome)
    (filtered : list Article) :
  Forall (fun x => ∃ t, x !! "title" = Some (VStr t)) filtered →
  ∀ (i : nat) (self : NewsFilter),
  ∃ self',
    send_alerts cfg delivery i self filtered = Some self' ∧
    (∀ t, t ∈ sent_headlines self → t ∈ sent_headlines self') ∧
    (∀ j x, filtered !! j = Some x → (delivery (i + j)).1 = true →
            ∃ t, x !! "title" = Some (VStr t) ∧ t ∈ sent_headlines self') ∧
    (∀ t, t ∈ sent_headlines self' →
          t ∈ sent_headlines self ∨
          ∃ j x, filtered !! j = Some x ∧ (delivery (i + j)).1 = true ∧
                 x !! "title" = Some (VStr t)) ∧
    ((∀ j, (j < length filtered)%nat → (delivery (i + j)).1 = false) →
     self' = self).
Proof.
  induction 1 as [|x l [t Ht] _ IH]; intros i self.
  - exists self. repeat split; try done.
    intros t Hin. by left.
  - cbn [send_alerts]. destruct (delivery i) as [delivered io] eqn:Hd.
    destruct delivered.
    + rewrite Ht.
      destruct (IH (S i) (mark_as_sent cfg io self t))
        as (self' & Hrun & Hkeep & Hsent & Honly & _).
      exists self'. split; [done|]. split; [|split; [|split]].
      * intros t' Hin. apply Hkeep. rewrite mark_as_sent_headlines.
        apply elem_of_app. by left.
      * intros [|j] y Hy Hj.
        -- injection Hy as <-. exists t. split; [done|]. apply Hkeep.
           rewrite mark_as_sent_headlines. apply elem_of_app. right. left.
        -- apply (Hsent j y Hy). by replace (S i + j) with (i + S j) by lia.
      * intros t' Hin. destruct (Honly t' Hin) as [Hold|(j & y & Hy & Hj & Hty)].
        -- rewrite mark_as_sent_headlines in Hold.
           apply elem_of_app in Hold as [Hold|Hnew]; [by left|].
           apply list_elem_of_singleton in Hnew as ->. right.
           exists 0, x. rewrite Nat.add_0_r, Hd. done.
        -- right. exists (S j), y.
           by replace (i + S j) with (S i + j) by lia.
      * intros Hnone. specialize (Hnone 0 ltac:(simpl; lia)).
        rewrite Nat.add_0_r, Hd in Hnone. done.
    + destruct (IH (S i) self) as (self' & Hrun & Hkeep & Hsent & Honly & Hsame).
      exists self'. split; [done|]. split; [done|]. split; [|split].
      * intros [|j] y Hy Hj.
        -- rewrite Nat.add_0_r, Hd in Hj. done.
        -- apply (Hsent j y Hy). by replace (S i + j) with (i + S j) by lia.
      * intros t' Hin. destruct (Honly t' Hin) as [Hold|(j & y & Hy & Hj & Hty)];
          [by left|].
        right. exists (S j), y. by replace (i + S j) with (S i + j) by lia.
      * intros Hnone. apply Hsame. intros j Hj.
        replace (S i + j) with (i + S j) by lia. apply Hnone. simpl. lia.
Qed.

Lemma filter_articles_titled (cfg : Config) (self : NewsFilter)
    (articles out : list Article) :
  returned (filter_articles cfg self articles) = Some out →
  Forall (fun x => ∃ t, x !! "title" = Some (VStr t)) out.
Proof.
  rewrite filter_articles_eq. intros [= <-].
  apply Forall_forall. intros x Hx.
  apply elem_of_take in Hx as (i & Hx & _).
  apply list_elem_of_lookup_2 in Hx. rewrite ranked_perm in Hx.
  apply accepted_origin in Hx as (a & _ & Hf).
  apply filter_article_appended in Hf as (t & q & Ht & _ & _ & _ & _ & _ & ->).
  exists t. by rewrite lookup_insert_ne.
Qed.

(** X20.  One cycle: the articles [filter_articles] returns are sent and marked.
    Every article whose send succeeded has its title in the history
    afterwards and is a duplicate from then on; the history gains no title
    but those; and if no send succeeded the filter object is left exactly
    as it was, so the same articles are offered again. *)
Theorem send_alerts_marks_delivered (cfg : Config) (self : NewsFilter)
    (articles out : list Article) (delivery : nat → bool * write_outcome) :
  returned (filter_articles cfg self articles) = Some out →
  ∃ self',
    send_alerts cfg delivery 0 self out = Some self' ∧
    (∀ i x, out !! i = Some x → (delivery i).1 = true →
            ∃ t, x !! "title" = Some (VStr t) ∧ is_duplicate self' t = true) ∧
    (∀ t, t ∈ sent_headlines self' →
          t ∈ sent_headlines self ∨
          ∃ i x, out !! i = Some x ∧ (delivery i).1 = true ∧
                 x !! "title" = Some (VStr t)) ∧
    ((∀ i, (i < length out)%nat → (delivery i).1 = false) → self' = self).
Proof.
  intros Hout.
  destruct (send_alerts_titled cfg delivery out
              (filter_articles_titled _ _ _ _ Hout) 0 self)
    as (self' & Hrun & _ & Hsent & Honly & Hsame).
  exists self'. split; [done|]. split; [|split; [done|done]].
  intros i x Hx Hi. destruct (Hsent i x Hx Hi) as (t & Ht & Hin).
  exists t. split; [done|]. unfold is_duplicate.
  by rewrite bool_decide_eq_true_2.
Qed.

Lemma send_alerts_marks_delivered_witness :
  ∃ self',
    send_alerts config (fun i => (Nat.eqb i 1, Written)) 0 empty_filter
      [annotate config (mk_article "Gold rallies on record high" "" "gold" "Kitco");
       annotate config (mk_article "Silver price dips" "" "gold" "Kitco")]
    = Some self' ∧
    is_duplicate self' "Silver price dips" = true ∧
    is_duplicate self' "Gold rallies on record high" = false.
Proof.
  destruct (send_alerts_marks_delivered config empty_filter
              [mk_article "Silver price dips" "" "gold" "Kitco";
               mk_article "Gold rallies on record high" "" "gold" "Kitco"]
              [annotate config (mk_article "Gold rallies on record high" "" "gold" "Kitco");
               annotate config (mk_article "Silver price dips" "" "gold" "Kitco")]
              (fun i => (Nat.eqb i 1, Written)))
    as (self' & Hrun & Hsent & _ & _).
  - vm_compute. reflexivity.
  - exists self'. split; [exact Hrun|].
    vm_compute in Hrun. injection Hrun as <-.
    split; vm_compute; reflexivity.
Defined.
